(** * Logistics dashboard: the filter-and-aggregate pipeline of [app.py]

    The script loads a table of shipment records, keeps the rows selected
    by four sidebar multiselects, computes five KPI scalars and feeds six
    charts.  This development embeds the data path of the script (lines
    38-93, 100, 119-151, 171-178 and 185-190 of [app.py]) and states the
    properties of the specification over that embedding.

    Conventions of the embedding.
    - A [DataFrame] is the list of its rows in index order; a column
      ([df["c"]]) is the list obtained by projecting every row.
    - Categorical cells are strings, numeric cells are integers (the
      columns the script reads are int64 in the source table).
    - A float64 result is an exact rational, an infinity or NaN: rounding
      and the sign of zero are not modelled, the special values are.  The
      theorems over these values say which results are NaN, bound the
      numbers, and give the values that binary64 holds exactly; module
      [Binary64] evaluates the same expressions with IEEE rounding. *)

From stdpp Require Import base decidable option list sorting strings.
From Stdlib Require Import ZArith QArith Qreduction Reals Psatz.
From Stdlib Require Import Ascii DecimalString DecimalPos DecimalZ.
From Stdlib Require SpecFloat.

#[local] Open Scope Z_scope.

(** ** Data model *)

(** One row of [df], with the columns the script names.  [OnTime] is the
    copy of [Reached.on.Time_Y.N] made on line 38. *)
Record Row : Type := mkRow {
  Mode_of_Shipment : string;
  Warehouse_block : string;
  Product_importance : string;
  Gender : string;
  Customer_care_calls : Z;
  Cost_of_the_Product : Z;
  Discount_offered : Z;
  OnTime : Z
}.

#[global] Instance Row_eq_dec : EqDecision Row.
Proof. solve_decision. Defined.

Abbreviation DataFrame := (list Row).

(** The four lists returned by the sidebar multiselects (lines 45-67). *)
Record FilterSpec : Type := mkFilterSpec {
  shipment_mode : list string;
  warehouse : list string;
  product_importance : list string;
  gender : list string
}.

Module Filter.

(** [Series.isin(values)]: the boolean mask, one cell per row. *)
Definition isin (column values : list string) : list bool :=
  (λ x, bool_decide (x ∈ values)) <$> column.

(** [mask1 & mask2] on boolean Series of one index. *)
Definition mask_and (m1 m2 : list bool) : list bool := zip_with andb m1 m2.

(** [df[mask]]: the rows whose mask cell is [True], in index order. *)
Fixpoint boolean_index (df : DataFrame) (mask : list bool) : DataFrame :=
  match df, mask with
  | r :: df', b :: mask' =>
      if b then r :: boolean_index df' mask' else boolean_index df' mask'
  | _, _ => []
  end.

(** [Series.unique()]: the distinct values in order of first appearance. *)
Fixpoint unique {A} `{EqDecision A} (column : list A) : list A :=
  match column with
  | [] => []
  | x :: column' => x :: filter (λ y, y ≠ x) (unique column')
  end.

(** Lines 70-75. *)
Definition filtered_df (df : DataFrame) (s : FilterSpec) : DataFrame :=
  boolean_index df
    (mask_and
      (mask_and
        (mask_and (isin (Mode_of_Shipment <$> df) (shipment_mode s))
                  (isin (Warehouse_block <$> df) (warehouse s)))
        (isin (Product_importance <$> df) (product_importance s)))
      (isin (Gender <$> df) (gender s))).

(** The selection a fresh session starts with: every multiselect has
    [default = df[col].unique()] (lines 45-67). *)
Definition default_spec (df : DataFrame) : FilterSpec :=
  {| shipment_mode := unique (Mode_of_Shipment <$> df);
     warehouse := unique (Warehouse_block <$> df);
     product_importance := unique (Product_importance <$> df);
     gender := unique (Gender <$> df) |}.

(** The retention condition of the specification: each of the four
    filterable cells is a member of that field's accepted set. *)
Definition accepted (s : FilterSpec) (r : Row) : Prop :=
  Mode_of_Shipment r ∈ shipment_mode s ∧
  Warehouse_block r ∈ warehouse s ∧
  Product_importance r ∈ product_importance s ∧
  Gender r ∈ gender s.

#[global] Instance accepted_dec s r : Decision (accepted s r).
Proof. unfold accepted. apply _. Defined.

(** One accepted set is included in the other, field by field. *)
Definition spec_incl (s s' : FilterSpec) : Prop :=
  shipment_mode s ⊆ shipment_mode s' ∧
  warehouse s ⊆ warehouse s' ∧
  product_importance s ⊆ product_importance s' ∧
  gender s ⊆ gender s'.

(** The accepted set of every field is exactly the set of values the
    dataset has in that column. *)
Definition full_domain (df : DataFrame) (s : FilterSpec) : Prop :=
  (∀ x, x ∈ shipment_mode s ↔ x ∈ Mode_of_Shipment <$> df) ∧
  (∀ x, x ∈ warehouse s ↔ x ∈ Warehouse_block <$> df) ∧
  (∀ x, x ∈ product_importance s ↔ x ∈ Product_importance <$> df) ∧
  (∀ x, x ∈ gender s ↔ x ∈ Gender <$> df).

(** Some field has nothing selected. *)
Definition some_empty (s : FilterSpec) : Prop :=
  shipment_mode s = [] ∨ warehouse s = [] ∨
  product_importance s = [] ∨ gender s = [].

(** Two selections tick the same values among those the dataset has. *)
Definition same_on_domain (df : DataFrame) (s s' : FilterSpec) : Prop :=
  (∀ x, x ∈ Mode_of_Shipment <$> df →
        x ∈ shipment_mode s ↔ x ∈ shipment_mode s') ∧
  (∀ x, x ∈ Warehouse_block <$> df → x ∈ warehouse s ↔ x ∈ warehouse s') ∧
  (∀ x, x ∈ Product_importance <$> df →
        x ∈ product_importance s ↔ x ∈ product_importance s') ∧
  (∀ x, x ∈ Gender <$> df → x ∈ gender s ↔ x ∈ gender s').

End Filter.

(** ** float64 values

    The value of a float64 expression of the script: a number, one of the
    two infinities, or NaN.  Numbers are exact rationals kept in lowest
    terms, so that equal numbers are equal terms; the operations do not
    round to 53 bits. *)
Module Float64.

Inductive float64 : Type :=
  | NaN
  | Inf (negative : bool)
  | Fin (q : Q).

Definition is_negative (q : Q) : bool := negb (Qle_bool 0 q).

(** int64 (or Python int) to float64. *)
Definition of_int (z : Z) : float64 := Fin (inject_Z z).

(** [x / y] on float64 operands, as numpy evaluates it: a zero divisor
    gives NaN for a zero dividend and an infinity otherwise; no exception
    is raised. *)
Definition true_divide (x y : float64) : float64 :=
  match x, y with
  | NaN, _ | _, NaN => NaN
  | Inf _, Inf _ => NaN
  | Inf s, Fin q => Inf (xorb s (is_negative q))
  | Fin _, Inf _ => Fin 0
  | Fin p, Fin q =>
      if Qeq_bool q 0
      then (if Qeq_bool p 0 then NaN else Inf (is_negative p))
      else Fin (Qred (p / q))
  end.

(** [x * y]. *)
Definition multiply (x y : float64) : float64 :=
  match x, y with
  | NaN, _ | _, NaN => NaN
  | Inf s, Inf t => Inf (xorb s t)
  | Inf s, Fin q | Fin q, Inf s =>
      if Qeq_bool q 0 then NaN else Inf (xorb s (is_negative q))
  | Fin p, Fin q => Fin (Qred (p * q))
  end.

(** [x - y]. *)
Definition subtract (x y : float64) : float64 :=
  match x, y with
  | NaN, _ | _, NaN => NaN
  | Inf s, Inf t => if Bool.eqb s t then NaN else Inf s
  | Inf s, Fin _ => Inf s
  | Fin _, Inf t => Inf (negb t)
  | Fin p, Fin q => Fin (Qred (p - q))
  end.

(** [z > x] for an int64 cell [z] and a float64 scalar [x]; every
    comparison with NaN is [False]. *)
Definition int_gt (z : Z) (x : float64) : bool :=
  match x with
  | NaN => false
  | Inf negative => negative
  | Fin q => negb (Qle_bool (inject_Z z) q)
  end.

End Float64.

(** ** Series reductions of pandas *)
Module Series.
Import Float64.

(** [Series.sum()] of an int64 column. *)
Definition sum (column : list Z) : Z := foldr Z.add 0 column.

(** [len(df)]. *)
Definition len {A} (l : list A) : Z := Z.of_nat (length l).

(** [Series.mean()] of an int64 column: NaN for the empty column. *)
Definition mean (column : list Z) : float64 :=
  match column with
  | [] => NaN
  | _ => true_divide (of_int (sum column)) (of_int (len column))
  end.

(** [Series.median()] of an int64 column: NaN for the empty column, the
    middle value of the sorted column for an odd length, the mean of the
    two middle values for an even length. *)
Definition median (column : list Z) : float64 :=
  let sorted := merge_sort Z.le column in
  let n := length sorted in
  match n with
  | O => NaN
  | _ =>
      if Nat.even n
      then true_divide
             (of_int (sorted !!! (n / 2 - 1)%nat + sorted !!! (n / 2)%nat))
             (of_int 2)
      else of_int (sorted !!! (n / 2)%nat)
  end.

End Series.

(** ** KPI calculations (lines 86-93) *)
Module KPI.
Import Float64 Series Filter.

(** The exception the specification names for an undefined metric. *)
Inductive exn : Type := UndefinedMetric.

(** What running a block of statements ends in. *)
Inductive outcome (A : Type) : Type :=
  | Returns (a : A)
  | Raises (e : exn).
Arguments Returns {A} a.
Arguments Raises {A} e.

#[global] Instance outcome_ret : MRet outcome := @Returns.

#[global] Instance outcome_bind : MBind outcome := λ A B k c,
  match c with
  | Returns a => k a
  | Raises e => Raises e
  end.

Definition total_orders (filtered_df : DataFrame) : Z := len filtered_df.

(** The dividend is the int64 that [Series.sum()] returns, so the [/] of
    line 87 is numpy's division, which has a result for a zero divisor. *)
Definition on_time_rate (filtered_df : DataFrame) : float64 :=
  multiply
    (true_divide (of_int (sum (OnTime <$> filtered_df)))
                 (of_int (total_orders filtered_df)))
    (of_int 100).

Definition late_rate (filtered_df : DataFrame) : float64 :=
  subtract (of_int 100) (on_time_rate filtered_df).

(** [filtered_df[filtered_df["OnTime"] == 0]]. *)
Definition late_rows (filtered_df : DataFrame) : DataFrame :=
  boolean_index filtered_df ((λ r, OnTime r =? 0) <$> filtered_df).

Definition avg_discount_late (filtered_df : DataFrame) : float64 :=
  mean (Discount_offered <$> late_rows filtered_df).

Definition avg_calls_late (filtered_df : DataFrame) : float64 :=
  mean (Customer_care_calls <$> late_rows filtered_df).

Definition high_value (filtered_df : DataFrame) : DataFrame :=
  let threshold := median (Cost_of_the_Product <$> filtered_df) in
  boolean_index filtered_df
    ((λ r, int_gt (Cost_of_the_Product r) threshold) <$> filtered_df).

Definition high_value_late_rate (filtered_df : DataFrame) : float64 :=
  multiply
    (subtract (of_int 1) (mean (OnTime <$> high_value filtered_df)))
    (of_int 100).

(** The values bound by lines 86-93. *)
Record MetricsSummary : Type := mkMetricsSummary {
  kpi_total_orders : Z;
  kpi_on_time_rate : float64;
  kpi_late_rate : float64;
  kpi_avg_discount_late : float64;
  kpi_avg_calls_late : float64;
  kpi_high_value_late_rate : float64
}.

(** Lines 86-93 run in order; a statement that raised would end the block
    there. *)
Definition kpi_section (filtered_df : DataFrame) : outcome MetricsSummary :=
  n ← mret (total_orders filtered_df);
  otr ← mret (on_time_rate filtered_df);
  lr ← mret (late_rate filtered_df);
  adl ← mret (avg_discount_late filtered_df);
  acl ← mret (avg_calls_late filtered_df);
  hvl ← mret (high_value_late_rate filtered_df);
  mret (mkMetricsSummary n otr lr adl acl hvl).

End KPI.

(** ** The rates in IEEE binary64

    Lines 87, 88 and 93 with the rounding of the machine: the operations
    of the Standard Library's specification of IEEE 754 arithmetic at 53
    bits of precision, rounding to nearest, ties to even. *)
Module Binary64.

Definition prec : Z := 53.
Definition emax : Z := 1024.

Abbreviation float64 := SpecFloat.spec_float.

(** int64 (or Python int) to float64. *)
Definition of_int (z : Z) : float64 :=
  SpecFloat.binary_normalize prec emax z 0 false.

Definition true_divide : float64 → float64 → float64 :=
  SpecFloat.SFdiv prec emax.

Definition multiply : float64 → float64 → float64 :=
  SpecFloat.SFmul prec emax.

Definition subtract : float64 → float64 → float64 :=
  SpecFloat.SFsub prec emax.

Definition on_time_rate (filtered_df : DataFrame) : float64 :=
  multiply
    (true_divide (of_int (Series.sum (OnTime <$> filtered_df)))
                 (of_int (KPI.total_orders filtered_df)))
    (of_int 100).

Definition late_rate (filtered_df : DataFrame) : float64 :=
  subtract (of_int 100) (on_time_rate filtered_df).

(** [Series.mean()] of an int64 column. *)
Definition mean (column : list Z) : float64 :=
  match column with
  | [] => SpecFloat.S754_nan
  | _ => true_divide (of_int (Series.sum column)) (of_int (Series.len column))
  end.

Definition high_value_late_rate (filtered_df : DataFrame) : float64 :=
  multiply
    (subtract (of_int 1) (mean (OnTime <$> KPI.high_value filtered_df)))
    (of_int 100).

(** The number a finite float64 stands for: its mantissa times the power
    of two of its exponent, in lowest terms. *)
Definition to_Q (x : float64) : option Q :=
  match x with
  | SpecFloat.S754_zero _ => Some 0%Q
  | SpecFloat.S754_finite negative m e =>
      let magnitude := (inject_Z (Z.pos m) * Qpower 2 e)%Q in
      Some (Qred (if negative then - magnitude else magnitude))
  | _ => None
  end.

End Binary64.

(** ** Notions of the specification (sections 4.2 and 4.3) *)
Module Spec.

(** "the subset of view where on-time flag = 0". *)
Definition late (view : DataFrame) : DataFrame :=
  filter (λ r, OnTime r = 0) view.

#[global] Instance Qlt_decision (p q : Q) : Decision (p < q)%Q :=
  match Qlt_le_dec p q with
  | left Hlt => left Hlt
  | right Hle => right (Qle_not_lt q p Hle)
  end.

#[global] Instance Qle_decision (p q : Q) : Decision (p <= q)%Q :=
  match Qlt_le_dec q p with
  | left Hlt => right (Qlt_not_le q p Hlt)
  | right Hle => left Hle
  end.

(** The median of a column: the middle of the sorted values, the midpoint
    of the two middle values for an even count, nothing for no value. *)
Definition median (xs : list Z) : option Q :=
  let sorted := merge_sort Z.le xs in
  let n := length sorted in
  if decide (n = 0%nat) then None
  else if Nat.even n
       then Some ((inject_Z (sorted !!! (n / 2 - 1)%nat)
                   + inject_Z (sorted !!! (n / 2)%nat)) / 2)%Q
       else Some (inject_Z (sorted !!! (n / 2)%nat)).

(** "records with cost strictly greater than the median cost of view
    itself". *)
Definition highValue (view : DataFrame) : DataFrame :=
  match median (Cost_of_the_Product <$> view) with
  | None => []
  | Some m => filter (λ r, (m < inject_Z (Cost_of_the_Product r))%Q) view
  end.



End Spec.

(** ** Chart inputs *)
Module Charts.
Import Filter.

(** The rows drawn by the trace of colour [flag]. *)
Definition trace_rows (filtered_df : DataFrame) (flag : Z) : DataFrame :=
  filter (λ r, OnTime r = flag) filtered_df.

(** [px.histogram(filtered_df, x="Mode_of_Shipment", color="OnTime")]
    (lines 120-127): one trace per value of [OnTime] in the frame, in
    order of first appearance; the [x] of a trace is the shipment mode of
    each of its rows, in row order.  The script counts nothing here: the
    values are binned when the chart is drawn. *)
Definition fig1 (filtered_df : DataFrame) : list (Z * list string) :=
  (λ flag, (flag, Mode_of_Shipment <$> trace_rows filtered_df flag))
    <$> unique (OnTime <$> filtered_df).


End Charts.

(** ** Correlation heat map (line 173)

    [DataFrame.corr()] with its defaults: Pearson's coefficient for every
    pair of numeric columns, computed in one pass over the rows by
    Welford's update, [min_periods = 1].  The coefficient needs a square
    root, so this part of the embedding is over the real numbers. *)
Module Corr.

Inductive entry : Type :=
  | NaN
  | Val (r : R).

(** The running sums of the pass over one pair of columns. *)
Record welford : Type := mkWelford {
  nobs : nat;
  meanx : R;
  meany : R;
  ssqdm_x : R;
  ssqdm_y : R;
  covxy : R
}.

Definition welford_init : welford := mkWelford 0 0 0 0 0 0.

Definition welford_step (st : welford) (v : Z * Z) : welford :=
  let vx := IZR v.1 in
  let vy := IZR v.2 in
  let nobs' := S (nobs st) in
  let dx := (vx - meanx st)%R in
  let dy := (vy - meany st)%R in
  let meanx' := (meanx st + 1 / INR nobs' * dx)%R in
  let meany' := (meany st + 1 / INR nobs' * dy)%R in
  {| nobs := nobs';
     meanx := meanx';
     meany := meany';
     ssqdm_x := ssqdm_x st + (vx - meanx') * dx;
     ssqdm_y := ssqdm_y st + (vy - meany') * dy;
     covxy := covxy st + (vx - meanx') * dy |}%R.

Definition welford_pass (xs ys : list Z) : welford :=
  fold_left welford_step (zip xs ys) welford_init.

(** One cell of the matrix: NaN for fewer than [min_periods] rows or a
    zero divisor. *)
Definition nancorr (xs ys : list Z) : entry :=
  let st := welford_pass xs ys in
  if decide (nobs st < 1)%nat then NaN
  else
    let divisor := sqrt (ssqdm_x st * ssqdm_y st) in
    if Req_dec_T divisor 0 then NaN else Val (covxy st / divisor).

(** The numeric columns of a row, which [select_dtypes(include=np.number)]
    keeps. *)
Inductive numeric_column : Type :=
  | col_Customer_care_calls
  | col_Cost_of_the_Product
  | col_Discount_offered
  | col_OnTime.

Definition cell (c : numeric_column) (r : Row) : Z :=
  match c with
  | col_Customer_care_calls => Customer_care_calls r
  | col_Cost_of_the_Product => Cost_of_the_Product r
  | col_Discount_offered => Discount_offered r
  | col_OnTime => OnTime r
  end.

(** The position of the column in the frame. *)
Definition position (c : numeric_column) : nat :=
  match c with
  | col_Customer_care_calls => 0
  | col_Cost_of_the_Product => 1
  | col_Discount_offered => 2
  | col_OnTime => 3
  end.

(** [filtered_df.select_dtypes(include=np.number).corr()], cell [(x, y)].
    The pass is run for the pairs on and below the diagonal, the column
    of greater position first, and its result is written to both cells
    of the pair. *)
Definition corr (filtered_df : DataFrame) (x y : numeric_column) : entry :=
  if decide (position y ≤ position x)%nat
  then nancorr (cell x <$> filtered_df) (cell y <$> filtered_df)
  else nancorr (cell y <$> filtered_df) (cell x <$> filtered_df).

(** The column has one value on the whole frame. *)
Definition constant_on (filtered_df : DataFrame) (x : numeric_column) : Prop :=
  ∀ r1 r2, r1 ∈ filtered_df → r2 ∈ filtered_df → cell x r1 = cell x r2.

(** The column has two different values on the frame. *)
Definition varies_on (filtered_df : DataFrame) (x : numeric_column) : Prop :=
  ∃ r1 r2, r1 ∈ filtered_df ∧ r2 ∈ filtered_df ∧ cell x r1 ≠ cell x r2.

(** The part of the running sums that one column determines: the count,
    the mean, and the sum of squared deviations from the mean. *)
Record moments : Type := mkMoments {
  m_nobs : nat;
  m_mean : R;
  m_ssqdm : R
}.

Definition moments_step (m : moments) (v : Z) : moments :=
  let n' := S (m_nobs m) in
  let d := (IZR v - m_mean m)%R in
  let mean' := (m_mean m + 1 / INR n' * d)%R in
  {| m_nobs := n';
     m_mean := mean';
     m_ssqdm := m_ssqdm m + (IZR v - mean') * d |}%R.

Definition x_moments (st : welford) : moments :=
  mkMoments (nobs st) (meanx st) (ssqdm_x st).

Definition y_moments (st : welford) : moments :=
  mkMoments (nobs st) (meany st) (ssqdm_y st).

(** The frame has two rows that differ. *)
Definition two_distinct_rows (filtered_df : DataFrame) : Prop :=
  ∃ r1 r2, r1 ∈ filtered_df ∧ r2 ∈ filtered_df ∧ r1 ≠ r2.

(** The three sums keep the Cauchy–Schwarz inequality. *)
Definition bounded (st : welford) : Prop :=
  (0 <= ssqdm_x st ∧ 0 <= ssqdm_y st ∧
   covxy st * covxy st <= ssqdm_x st * ssqdm_y st)%R.

End Corr.

(** ** Inputs of the other charts (lines 130-169 and 185-190) *)
Module Aggregates.
Import Filter.

(** The rows of one warehouse block. *)
Definition block_rows (filtered_df : DataFrame) (block : string) : DataFrame :=
  filter (λ r, Warehouse_block r = block) filtered_df.

(** [filtered_df.groupby("Warehouse_block")["OnTime"].mean().reset_index()]
    (line 131): one row per block of the frame, the blocks in sorted
    order, with the mean on-time flag of the rows of the block. *)
Definition warehouse_perf (filtered_df : DataFrame)
  : list (string * Float64.float64) :=
  (λ block, (block, Series.mean (OnTime <$> block_rows filtered_df block)))
    <$> merge_sort String.le (unique (Warehouse_block <$> filtered_df)).

(** [px.box(filtered_df, x="OnTime", y="Discount_offered", color="OnTime")]
    (lines 143-150): one box per value of [OnTime] in the frame, drawn
    from the discounts of the rows with that value. *)
Definition fig3 (filtered_df : DataFrame) : list (Z * list Z) :=
  (λ flag, (flag, Discount_offered <$> Charts.trace_rows filtered_df flag))
    <$> unique (OnTime <$> filtered_df).

(** [px.pie(filtered_df, names="Product_importance")] (lines 185-189):
    the labels of the pie are the product importance of each row, in row
    order; the script counts nothing here, the slices are sized when the
    chart is drawn. *)
Definition fig6 (filtered_df : DataFrame) : list string :=
  Product_importance <$> filtered_df.

End Aggregates.

(** ** The "Total Orders" card (line 100) *)
Module Cards.

(** Digits given from the last to the first, a comma put after every
    third one that has a digit after it. *)
Fixpoint group3 (digits_from_last : list ascii) : list ascii :=
  match digits_from_last with
  | a :: b :: c :: (_ :: _) as more =>
      a :: b :: c :: ","%char :: group3 more
  | few => few
  end.

Definition group_thousands (digits : string) : string :=
  String.string_of_list_ascii
    (reverse (group3 (reverse (String.list_ascii_of_string digits)))).

(** [f"{n:,}"] for an int: the decimal digits in groups of three counted
    from the right, separated by commas, after the sign. *)
Definition format_thousands (n : Z) : string :=
  match Z.to_int n with
  | Decimal.Pos d => group_thousands (NilZero.string_of_uint d)
  | Decimal.Neg d => String "-"%char (group_thousands (NilZero.string_of_uint d))
  end.

(** The text of the first card. *)
Definition total_orders_card (filtered_df : DataFrame) : string :=
  format_thousands (KPI.total_orders filtered_df).

(** [s.replace(",", "")]. *)
Definition strip_commas (s : string) : string :=
  String.string_of_list_ascii
    (filter (λ c, c ≠ ","%char) (String.list_ascii_of_string s)).

(** Reading the card back: [int(s.replace(",", ""))]. *)
Definition parse_thousands (s : string) : option Z :=
  Z.of_int <$> NilZero.int_of_string (strip_commas s).

End Cards.

(** ** Sample rows and views *)
Module Samples.

Definition row (mode block importance sex : string)
    (calls cost discount on_time : Z) : Row :=
  mkRow mode block importance sex calls cost discount on_time.

Definition on_time_ship : Row := row "Ship" "A" "low" "F" 4 177 44 1.
Definition late_flight : Row := row "Flight" "F" "medium" "M" 5 216 20 0.
Definition on_time_road : Row := row "Road" "B" "high" "M" 2 183 48 1.
Definition on_time_flight : Row := row "Flight" "D" "low" "F" 3 250 10 1.

(** Four rows with on-time flags 1, 0, 1, 1; the late one has 5 calls and
    a discount of 20. *)
Definition four_rows : DataFrame :=
  [on_time_ship; late_flight; on_time_road; on_time_flight].

(** Two rows of one cost, the first of them late. *)
Definition same_cost : DataFrame :=
  [row "Ship" "A" "low" "F" 6 200 5 0; row "Road" "B" "high" "M" 3 200 9 1].

(** Two rows that differ in cost and are both on time. *)
Definition two_on_time : DataFrame := [on_time_ship; on_time_road].

(** A selection with no warehouse block ticked. *)
Definition no_warehouse : FilterSpec :=
  mkFilterSpec ["Ship"; "Flight"; "Road"] [] ["low"; "medium"; "high"]
               ["F"; "M"].

(** A narrow selection and a wider one. *)
Definition ships_only : FilterSpec :=
  mkFilterSpec ["Ship"] ["A"] ["low"] ["F"].

Definition ships_and_flights : FilterSpec :=
  mkFilterSpec ["Ship"; "Flight"] ["A"; "D"; "F"] ["low"; "medium"] ["F"; "M"].

(** The narrow selection written with a repeated value, another order
    and a shipment mode the dataset does not have. *)
Definition ships_only_untidy : FilterSpec :=
  mkFilterSpec ["Rail"; "Ship"; "Ship"] ["A"] ["low"; "low"] ["F"].

(** Everything ticked but the shipment mode "Flight". *)
Definition ships_and_roads : FilterSpec :=
  mkFilterSpec ["Ship"; "Road"] ["A"; "B"; "D"; "F"]
               ["low"; "medium"; "high"] ["F"; "M"].

(** Twenty-five rows, seven of them on time. *)
Definition seven_of_25 : DataFrame :=
  replicate 7 on_time_ship ++ replicate 18 late_flight.

(** Ten rows: five of cost 100, and five of cost 200 of which four are
    on time. *)
Definition four_of_five_high : DataFrame :=
  replicate 5 (row "Road" "B" "low" "M" 3 100 7 0)
  ++ replicate 4 (row "Ship" "A" "high" "F" 4 200 12 1)
  ++ [row "Flight" "D" "high" "M" 6 200 30 0].

End Samples.

(** ** The filter engine *)

Module FilterFacts.
Import Filter.

(** The mask pipeline of lines 70-75 is the list filter by [accepted]. *)
Lemma filtered_df_filter (df : DataFrame) (s : FilterSpec) :
  filtered_df df s = filter (accepted s) df.
Proof.
  unfold filtered_df, isin, mask_and.
  induction df as [|r df IH]; [done|].
  cbn [fmap list_fmap zip_with boolean_index].
  rewrite filter_cons.
  destruct (decide (accepted s r)) as [Ha|Hn].
  - destruct Ha as (H1 & H2 & H3 & H4).
    rewrite !bool_decide_eq_true_2 by done. cbn. by rewrite IH.
  - replace (bool_decide (Mode_of_Shipment r ∈ shipment_mode s)
             && bool_decide (Warehouse_block r ∈ warehouse s)
             && bool_decide (Product_importance r ∈ product_importance s)
             && bool_decide (Gender r ∈ gender s)) with false; [done|].
    symmetry. apply not_true_is_false. intros Hb.
    apply Hn. unfold accepted.
    rewrite !andb_true_iff, !bool_decide_eq_true in Hb. tauto.
Qed.

Lemma elem_of_unique {A} `{EqDecision A} (x : A) (column : list A) :
  x ∈ unique column ↔ x ∈ column.
Proof.
  induction column as [|y column IH]; cbn; [done|].
  rewrite !elem_of_cons, (list_elem_of_filter (λ z, z ≠ y)), IH.
  destruct (decide (x = y)); intuition congruence.
Qed.

Lemma unique_NoDup {A} `{EqDecision A} (column : list A) :
  NoDup (unique column).
Proof.
  induction column as [|y column IH]; cbn; [constructor|].
  constructor.
  - rewrite (list_elem_of_filter (λ z, z ≠ y)). intros [Hy _]. by apply Hy.
  - by apply NoDup_filter.
Qed.

Lemma default_spec_full_domain (df : DataFrame) :
  full_domain df (default_spec df).
Proof. repeat split; intros; by apply elem_of_unique. Qed.

(** C1: a row is in the filtered frame exactly when it is a row of the
    dataset whose four filterable cells are all in the accepted sets; the
    filtered frame is a subsequence of the dataset; and every occurrence
    of a row is decided on its own, so that a dataset split around a row
    filters to the filtered prefix, that row if it is accepted, and the
    filtered suffix, in this order. *)
Theorem C1_filter_retains_iff_accepted_stable (df : DataFrame) (s : FilterSpec) :
  (∀ r, r ∈ filtered_df df s ↔ r ∈ df ∧ accepted s r) ∧
  filtered_df df s `sublist_of` df ∧
  (∀ l1 r l2, df = l1 ++ r :: l2 →
     filtered_df df s =
       filtered_df l1 s ++ (if decide (accepted s r) then [r] else [])
         ++ filtered_df l2 s).
Proof.
  split; [|split].
  - intros r. rewrite filtered_df_filter, list_elem_of_filter. tauto.
  - rewrite filtered_df_filter. apply sublist_filter.
  - intros l1 r l2 ->. rewrite !filtered_df_filter, filter_app, filter_cons.
    by destruct (decide (accepted s r)).
Qed.

(** C4: when nothing is selected for one of the four fields, the filtered
    frame is the empty frame. *)
Theorem C4_empty_accepted_set_gives_empty_view (df : DataFrame) (s : FilterSpec) :
  some_empty s → filtered_df df s = [].
Proof.
  intros He. rewrite filtered_df_filter.
  induction df as [|r df IH]; [done|].
  rewrite filter_cons, IH.
  destruct (decide (accepted s r)) as [(H1 & H2 & H3 & H4)|]; [|done].
  destruct He as [He|[He|[He|He]]]; rewrite He in *;
    exfalso; eapply not_elem_of_nil; eassumption.
Qed.

(** C7: a selection whose accepted sets are the full domains of the
    dataset keeps the whole dataset. *)
Theorem C7_full_domain_filter_is_identity (df : DataFrame) (s : FilterSpec) :
  full_domain df s → filtered_df df s = df.
Proof.
  intros (H1 & H2 & H3 & H4). rewrite filtered_df_filter.
  assert (Hall : Forall (accepted s) df).
  { apply Forall_forall. intros r Hr. unfold accepted.
    rewrite H1, H2, H3, H4. repeat split; by apply list_elem_of_fmap_2. }
  clear H1 H2 H3 H4.
  induction Hall as [|r df Ha _ IH]; [done|].
  rewrite filter_cons, IH. by destruct (decide (accepted s r)).
Qed.

(** C10: enlarging the accepted sets never removes a row: the frame
    filtered by the smaller selection is a subsequence of the frame
    filtered by the larger one, so every row retained by the former is
    retained by the latter. *)
Theorem C10_filter_monotone (df : DataFrame) (s s' : FilterSpec) :
  spec_incl s s' →
  filtered_df df s `sublist_of` filtered_df df s' ∧
  (∀ r, r ∈ filtered_df df s → r ∈ filtered_df df s').
Proof.
  intros (H1 & H2 & H3 & H4).
  assert (Hacc : ∀ r, accepted s r → accepted s' r).
  { intros r (A1 & A2 & A3 & A4). repeat split; auto. }
  assert (Hsub : filtered_df df s `sublist_of` filtered_df df s').
  { rewrite !filtered_df_filter.
    induction df as [|r df IH]; [done|].
    rewrite !filter_cons.
    destruct (decide (accepted s r)) as [Ha|Hn].
    - rewrite decide_True by auto. by constructor.
    - destruct (decide (accepted s' r)); [by constructor|done]. }
  split; [done|]. intros r. by apply sublist_subseteq.
Qed.

Lemma C4_witness_no_warehouse :
  filtered_df Samples.four_rows Samples.no_warehouse = [].
Proof.
  apply (C4_empty_accepted_set_gives_empty_view Samples.four_rows
           Samples.no_warehouse).
  right. left. reflexivity.
Defined.

Lemma C7_witness_default_selection :
  filtered_df Samples.four_rows (default_spec Samples.four_rows)
  = Samples.four_rows.
Proof.
  apply (C7_full_domain_filter_is_identity Samples.four_rows
           (default_spec Samples.four_rows)).
  apply default_spec_full_domain.
Defined.

Lemma C10_witness_ships_then_flights :
  filtered_df Samples.four_rows Samples.ships_only
    `sublist_of` filtered_df Samples.four_rows Samples.ships_and_flights ∧
  (∀ r, r ∈ filtered_df Samples.four_rows Samples.ships_only →
        r ∈ filtered_df Samples.four_rows Samples.ships_and_flights).
Proof.
  apply (C10_filter_monotone Samples.four_rows Samples.ships_only
           Samples.ships_and_flights).
  repeat split; cbn; intros x Hx;
    apply list_elem_of_singleton in Hx as ->; apply list_elem_of_here.
Defined.

End FilterFacts.

(** ** The KPI calculator *)

Module KPIFacts.
Import Float64 Series Filter KPI.

(** Indexing a frame by a mask computed row by row is a filter. *)
Lemma boolean_index_fmap (f : Row → bool) (P : Row → Prop)
    `{!∀ r, Decision (P r)} (df : DataFrame) :
  (∀ r, f r = true ↔ P r) →
  boolean_index df (f <$> df) = filter P df.
Proof.
  intros Hf. induction df as [|r df IH]; [done|].
  cbn [fmap list_fmap boolean_index]. rewrite filter_cons.
  fold (fmap (M:=list) f df). rewrite IH.
  destruct (f r) eqn:Hr, (decide (P r)) as [Hp|Hp]; try done.
  - exfalso. by apply Hp, Hf.
  - apply Hf in Hp. congruence.
Qed.

Lemma late_rows_late (v : DataFrame) : late_rows v = Spec.late v.
Proof. apply boolean_index_fmap. intros r. apply Z.eqb_eq. Qed.

Lemma inject_Z_nonzero (b : Z) : b ≠ 0 → Qeq_bool (inject_Z b) 0 = false.
Proof.
  intros Hb. destruct (Qeq_bool (inject_Z b) 0) eqn:E; [|done].
  apply Qeq_bool_eq in E. unfold Qeq in E. cbn in E. lia.
Qed.

Lemma true_divide_int (a b : Z) :
  b ≠ 0 →
  true_divide (of_int a) (of_int b) = Fin (Qred (inject_Z a / inject_Z b)).
Proof. intros Hb. unfold true_divide, of_int. by rewrite inject_Z_nonzero. Qed.

Lemma len_cons_nonzero {A} (x : A) (l : list A) : len (x :: l) ≠ 0.
Proof. unfold len. cbn [length]. lia. Qed.

Lemma len_zero_nil {A} (l : list A) : len l = 0 ↔ l = [].
Proof.
  unfold len. destruct l; cbn [length]; split; intros; try done; lia.
Qed.

Lemma mean_nan_iff (xs : list Z) : mean xs = NaN ↔ xs = [].
Proof.
  destruct xs as [|x xs]; [done|]. unfold mean.
  rewrite true_divide_int by apply len_cons_nonzero. done.
Qed.

Lemma on_time_rate_empty : on_time_rate [] = NaN.
Proof. reflexivity. Qed.

Lemma on_time_rate_nonempty (v : DataFrame) :
  total_orders v ≠ 0 →
  on_time_rate v =
    Fin (Qred (Qred (inject_Z (sum (OnTime <$> v)) / inject_Z (total_orders v))
               * inject_Z 100)).
Proof. intros Hn. unfold on_time_rate. by rewrite true_divide_int. Qed.


(** Lines 86-93 always run to the end. *)
Lemma kpi_section_returns (v : DataFrame) :
  kpi_section v =
    Returns {| kpi_total_orders := total_orders v;
               kpi_on_time_rate := on_time_rate v;
               kpi_late_rate := late_rate v;
               kpi_avg_discount_late := avg_discount_late v;
               kpi_avg_calls_late := avg_calls_late v;
               kpi_high_value_late_rate := high_value_late_rate v |}.
Proof. reflexivity. Qed.

(** [Series.median] is the median, NaN standing for the missing one. *)
Lemma median_represents (xs : list Z) :
  match Spec.median xs with
  | Some m => ∃ q', median xs = Fin q' ∧ (q' == m)%Q
  | None => median xs = NaN
  end.
Proof.
  unfold Spec.median, median.
  destruct (length (merge_sort Z.le xs)) as [|n] eqn:Hn; [done|].
  rewrite decide_False by done.
  destruct (Nat.even (S n)).
  - rewrite true_divide_int by done. eexists. split; [done|].
    rewrite Qred_correct, inject_Z_plus. reflexivity.
  - eexists. split; [done|]. reflexivity.
Qed.

(** *** The median is a middle value *)

Lemma sorted_around (l : list Z) (i : nat) (x : Z) :
  StronglySorted Z.le l → l !! i = Some x →
  Forall (λ y, y ≤ x) (take (S i) l) ∧ Forall (λ y, x ≤ y) (drop i l).
Proof.
  intros Hs Hi.
  rewrite <- (take_drop_middle l i x Hi) in Hs.
  apply StronglySorted_app in Hs as (Hle & _ & Hright).
  apply StronglySorted_cons in Hright as [Hright _].
  split.
  - rewrite (take_S_r l i x Hi). apply Forall_app. split.
    + apply Forall_forall. intros y Hy. apply (Hle y x Hy).
      apply list_elem_of_here.
    + by constructor.
  - rewrite (drop_S l x i Hi). by constructor.
Qed.

Lemma filter_all {A} (P : A → Prop) `{!∀ a, Decision (P a)} (l : list A) :
  Forall P l → filter P l = l.
Proof.
  induction 1 as [|a l Ha _ IH]; [done|].
  by rewrite filter_cons, decide_True, IH.
Qed.

Lemma length_filter_take {A} (P : A → Prop) `{!∀ a, Decision (P a)}
    (k : nat) (l : list A) :
  Forall P (take k l) → (k ≤ length l)%nat →
  (k ≤ length (filter P l))%nat.
Proof.
  intros Hall Hk. rewrite <- (take_drop k l) at 1.
  rewrite filter_app, length_app, (filter_all P _ Hall), length_take. lia.
Qed.

Lemma length_filter_drop {A} (P : A → Prop) `{!∀ a, Decision (P a)}
    (k : nat) (l : list A) :
  Forall P (drop k l) →
  (length l - k ≤ length (filter P l))%nat.
Proof.
  intros Hall. rewrite <- (take_drop k l) at 2.
  rewrite filter_app, length_app, (filter_all P _ Hall), length_drop. lia.
Qed.

(** At least half of the values are at most the median, and at least half
    are at least the median. *)
Lemma median_is_middle (xs : list Z) (m : Q) :
  Spec.median xs = Some m →
  (length xs ≤ 2 * length (filter (λ x, (inject_Z x <= m)%Q) xs))%nat ∧
  (length xs ≤ 2 * length (filter (λ x, (m <= inject_Z x)%Q) xs))%nat.
Proof.
  unfold Spec.median. intros Hm.
  pose proof (merge_sort_Permutation Z.le xs) as Hperm.
  pose proof (StronglySorted_merge_sort Z.le xs) as Hsorted.
  rewrite <- !Hperm. clear Hperm.
  set (l := merge_sort Z.le xs) in *.
  destruct (decide (length l = 0%nat)) as [|Hn]; [done|].
  destruct (Nat.even (length l)) eqn:Hpar.
  - apply Nat.even_spec in Hpar as [k Hk].
    assert (Hdiv : (length l / 2 = k)%nat).
    { rewrite Hk. symmetry. apply (Nat.div_unique _ 2 k 0); lia. }
    rewrite Hdiv in Hm.
    assert (Ha : l !! (k - 1)%nat = Some (l !!! (k - 1)%nat))
      by (apply list_lookup_lookup_total_lt; lia).
    assert (Hb : l !! k = Some (l !!! k))
      by (apply list_lookup_lookup_total_lt; lia).
    set (a := l !!! (k - 1)%nat) in *. set (b := l !!! k) in *.
    destruct (sorted_around l (k - 1) a Hsorted Ha) as [Hlow Hab].
    destruct (sorted_around l k b Hsorted Hb) as [_ Hhigh].
    replace (S (k - 1)) with k in Hlow by lia.
    assert (Hle : (inject_Z a <= inject_Z b)%Q).
    { rewrite <- Zle_Qle.
      replace k with (S (k - 1)) in Hb by lia.
      rewrite (drop_S l a (k - 1) Ha) in Hab.
      apply Forall_cons in Hab as [_ Hab].
      rewrite Forall_forall in Hab. apply Hab.
      apply list_elem_of_lookup. exists 0%nat.
      rewrite lookup_drop. by rewrite Nat.add_0_r. }
    injection Hm as <-. split.
    + transitivity (2 * k)%nat; [lia|]. apply Nat.mul_le_mono_l.
      apply length_filter_take; [|lia].
      eapply Forall_impl; [exact Hlow|]. intros y Hy. cbn in Hy.
      rewrite Zle_Qle in Hy. apply Qle_shift_div_l; [reflexivity|]. lra.
    + transitivity (2 * (length l - k))%nat; [lia|]. apply Nat.mul_le_mono_l.
      apply length_filter_drop.
      eapply Forall_impl; [exact Hhigh|]. intros y Hy. cbn in Hy.
      rewrite Zle_Qle in Hy. apply Qle_shift_div_r; [reflexivity|]. lra.
  - assert (Hodd : Nat.odd (length l) = true)
      by (by rewrite <- Nat.negb_even, Hpar).
    apply Nat.odd_spec in Hodd as [k Hk].
    assert (Hdiv : (length l / 2 = k)%nat).
    { rewrite Hk. symmetry. apply (Nat.div_unique _ 2 k 1); lia. }
    rewrite Hdiv in Hm.
    assert (Hc : l !! k = Some (l !!! k))
      by (apply list_lookup_lookup_total_lt; lia).
    set (c := l !!! k) in *.
    destruct (sorted_around l k c Hsorted Hc) as [Hlow Hhigh].
    injection Hm as <-. split.
    + transitivity (2 * S k)%nat; [lia|]. apply Nat.mul_le_mono_l.
      apply length_filter_take; [|lia].
      eapply Forall_impl; [exact Hlow|]. intros y Hy. cbn in Hy.
      by rewrite Zle_Qle in Hy.
    + transitivity (2 * (length l - k))%nat; [lia|]. apply Nat.mul_le_mono_l.
      apply length_filter_drop.
      eapply Forall_impl; [exact Hhigh|]. intros y Hy. cbn in Hy.
      by rewrite Zle_Qle in Hy.
Qed.

Lemma int_gt_Fin (z : Z) (q : Q) :
  int_gt z (Fin q) = true ↔ (q < inject_Z z)%Q.
Proof.
  unfold int_gt. rewrite negb_true_iff, <- not_true_iff_false, Qle_bool_iff.
  split; [apply Qnot_le_lt | apply Qlt_not_le].
Qed.

(** The rows the script calls high value are the rows whose cost is above
    the median cost of the frame they are taken from. *)
Lemma high_value_highValue (v : DataFrame) : high_value v = Spec.highValue v.
Proof.
  unfold high_value, Spec.highValue.
  pose proof (median_represents (Cost_of_the_Product <$> v)) as Hm.
  destruct (Spec.median (Cost_of_the_Product <$> v)) as [m|].
  - destruct Hm as (q' & -> & Hq). apply boolean_index_fmap.
    intros r. rewrite int_gt_Fin, Hq. done.
  - rewrite Hm. rewrite (boolean_index_fmap _ (λ _, False)).
    + clear Hm. induction v as [|r v IH]; [done|].
      by rewrite filter_cons, IH.
    + intros r. cbn. split; [discriminate|tauto].
Qed.

Lemma high_value_late_rate_nan_iff (v : DataFrame) :
  high_value_late_rate v = NaN ↔ high_value v = [].
Proof.
  unfold high_value_late_rate. split.
  - intros Hnan. destruct (high_value v) as [|r hv] eqn:Hhv; [done|].
    exfalso. cbn [fmap list_fmap] in Hnan. unfold mean in Hnan.
    rewrite true_divide_int in Hnan by apply len_cons_nonzero. done.
  - by intros ->.
Qed.

Lemma sum_all_ones (v : DataFrame) :
  (∀ r, r ∈ v → OnTime r = 1) → sum (OnTime <$> v) = len v.
Proof.
  unfold len. induction v as [|r v IH]; intros Hall; [done|].
  cbn [fmap list_fmap sum foldr length]. fold (fmap (M:=list) OnTime v).
  fold (sum (OnTime <$> v)).
  rewrite (Hall r) by apply list_elem_of_here.
  rewrite IH; [lia|]. intros r' Hr'. apply Hall. by apply list_elem_of_further.
Qed.

Lemma late_rows_all_on_time (v : DataFrame) :
  (∀ r, r ∈ v → OnTime r = 1) → late_rows v = [].
Proof.
  intros Hall. rewrite late_rows_late. unfold Spec.late.
  induction v as [|r v IH]; [done|].
  rewrite filter_cons, IH.
  - rewrite decide_False; [done|].
    rewrite (Hall r) by apply list_elem_of_here. done.
  - intros r' Hr'. apply Hall. by apply list_elem_of_further.
Qed.

Lemma filter_nil_iff {A} (P : A → Prop) `{!∀ a, Decision (P a)}
    (l : list A) :
  filter P l = [] ↔ ∀ a, a ∈ l → ¬ P a.
Proof.
  split.
  - intros Hnil a Ha Hp.
    assert (Hin : a ∈ filter P l) by (by apply list_elem_of_filter).
    rewrite Hnil in Hin. by apply not_elem_of_nil in Hin.
  - intros Hnone. destruct (filter P l) as [|a l'] eqn:Hf; [done|].
    assert (Hin : a ∈ filter P l) by (rewrite Hf; apply list_elem_of_here).
    apply list_elem_of_filter in Hin as [Hp Ha]. by destruct (Hnone a Ha).
Qed.

Lemma sum_bounds (lo hi : Z) (xs : list Z) :
  (∀ x, x ∈ xs → lo ≤ x ≤ hi) →
  lo * len xs ≤ sum xs ≤ hi * len xs.
Proof.
  unfold len. induction xs as [|x xs IH]; intros Hb; [cbn; lia|].
  cbn [sum foldr length]. fold (sum xs).
  assert (Hx : lo ≤ x ≤ hi) by apply Hb, list_elem_of_here.
  assert (Hxs : lo * Z.of_nat (length xs) ≤ sum xs
                ≤ hi * Z.of_nat (length xs)).
  { apply IH. intros x' Hx'. by apply Hb, list_elem_of_further. }
  lia.
Qed.

Lemma sum_flags_bounds (v : DataFrame) :
  (∀ r, r ∈ v → OnTime r = 0 ∨ OnTime r = 1) →
  0 ≤ sum (OnTime <$> v) ≤ len v.
Proof.
  unfold len. induction v as [|r v IH]; intros Hflags; [done|].
  cbn [fmap list_fmap sum foldr length]. fold (fmap (M:=list) OnTime v).
  fold (sum (OnTime <$> v)).
  assert (Hr : OnTime r = 0 ∨ OnTime r = 1)
    by apply Hflags, list_elem_of_here.
  assert (Hv : 0 ≤ sum (OnTime <$> v) ≤ Z.of_nat (length v)).
  { apply IH. intros r' Hr'. by apply Hflags, list_elem_of_further. }
  lia.
Qed.

(** A part of a whole is a fraction between 0 and 1. *)
Lemma fraction_unit_interval (a n : Z) :
  0 < n → 0 ≤ a ≤ n →
  (0 <= inject_Z a / inject_Z n)%Q ∧ (inject_Z a / inject_Z n <= 1)%Q.
Proof.
  intros Hn Ha. split.
  - apply Qle_shift_div_l; [by rewrite <- (Zlt_Qlt 0)|].
    rewrite Qmult_0_l. rewrite <- (Zle_Qle 0). lia.
  - apply Qle_shift_div_r; [by rewrite <- (Zlt_Qlt 0)|].
    rewrite Qmult_1_l. rewrite <- Zle_Qle. lia.
Qed.

Lemma fraction_none (n : Z) : (inject_Z 0 / inject_Z n == 0)%Q.
Proof. unfold Qdiv. change (inject_Z 0) with 0%Q. ring. Qed.

Lemma fraction_all (n : Z) : n ≠ 0 → (inject_Z n / inject_Z n == 1)%Q.
Proof.
  intros Hn. assert (Hq : ¬ (inject_Z n == 0)%Q) by (unfold Qeq; cbn; lia).
  field. exact Hq.
Qed.

Lemma len_pos {A} (l : list A) : l ≠ [] → 0 < len l.
Proof. unfold len. destruct l; [done|]. cbn [length]. lia. Qed.


(** The mean of a column of flags that has cells: a number; between 0
    and 1 when the flags are 0 or 1; 1 when all are 1 and 0 when all are
    0. *)
Lemma mean_of_flags (xs : list Z) :
  xs ≠ [] →
  ∃ q, mean xs = Fin q ∧
       ((∀ x, x ∈ xs → x = 0 ∨ x = 1) → (0 <= q)%Q ∧ (q <= 1)%Q) ∧
       ((∀ x, x ∈ xs → x = 1) → q = 1%Q) ∧
       ((∀ x, x ∈ xs → x = 0) → q = 0%Q).
Proof.
  intros Hne. pose proof (len_pos xs Hne) as Hpos.
  assert (Hmean : mean xs = Fin (Qred (inject_Z (sum xs) / inject_Z (len xs)))).
  { destruct xs as [|x xs]; [done|]. unfold mean.
    by rewrite true_divide_int by apply len_cons_nonzero. }
  rewrite Hmean. eexists. split; [done|]. split; [|split].
  - intros Hflags.
    assert (Hs : 0 * len xs ≤ sum xs ≤ 1 * len xs).
    { apply sum_bounds. intros x Hx. destruct (Hflags x Hx); lia. }
    rewrite Qred_correct. apply fraction_unit_interval; lia.
  - intros Hall.
    assert (Hs : 1 * len xs ≤ sum xs ≤ 1 * len xs).
    { apply sum_bounds. intros x Hx. rewrite (Hall x Hx). lia. }
    replace (sum xs) with (len xs) by lia.
    apply (Qred_complete _ 1), fraction_all. lia.
  - intros Hall.
    assert (Hs : 0 * len xs ≤ sum xs ≤ 0 * len xs).
    { apply sum_bounds. intros x Hx. rewrite (Hall x Hx). lia. }
    replace (sum xs) with 0 by lia.
    apply (Qred_complete _ 0), fraction_none.
Qed.


(** The threshold follows the selection: a row of cost 183 is above the
    median 180 of the two rows the selection keeps, and below the median
    199.5 of the four rows of the dataset. *)
Example high_value_follows_the_view :
  filtered_df Samples.four_rows Samples.ships_and_roads = Samples.two_on_time ∧
  median (Cost_of_the_Product <$> Samples.two_on_time) = Fin 180 ∧
  high_value Samples.two_on_time = [Samples.on_time_road] ∧
  median (Cost_of_the_Product <$> Samples.four_rows) = Fin (399 # 2) ∧
  high_value Samples.four_rows
  = [Samples.late_flight; Samples.on_time_flight].
Proof. repeat split; vm_compute; reflexivity. Qed.




(** C5, as the script has it: on a view that has rows, all of them on
    time, lines 86-93 run to the end; the two late-row averages are NaN
    and the on-time rate is 100 (the late rate 0). *)
Theorem C5_no_late_rows_nan_averages (v : DataFrame) :
  v ≠ [] →
  (∀ r, r ∈ v → OnTime r = 1) →
  ∃ m, kpi_section v = Returns m ∧
       kpi_avg_calls_late m = NaN ∧
       kpi_avg_discount_late m = NaN ∧
       kpi_on_time_rate m = Fin 100 ∧
       kpi_late_rate m = Fin 0.
Proof.
  intros Hne Hall. eexists. split; [apply kpi_section_returns|]. cbn.
  assert (Hrate : on_time_rate v = Fin 100).
  { assert (Hn : total_orders v ≠ 0).
    { unfold total_orders. rewrite len_zero_nil. done. }
    rewrite on_time_rate_nonempty by done.
    rewrite sum_all_ones by done. fold (total_orders v).
    f_equal. change (100%Q) with (Qred 100). apply Qred_complete.
    rewrite Qred_correct. change (inject_Z 100) with 100%Q.
    assert (Hq : ¬ (inject_Z (total_orders v) == 0)%Q).
    { unfold Qeq. cbn. lia. }
    field. exact Hq. }
  unfold avg_calls_late, avg_discount_late, late_rate.
  rewrite late_rows_all_on_time by done. rewrite Hrate. done.
Qed.




(** C5 fails as stated on the empty view: it has no late row, yet nothing
    is raised for the two averages, which are NaN, and the on-time rate is
    NaN too, not 100. *)
Lemma C5_counterexample_empty_view :
  (∀ r, r ∈ ([] : DataFrame) → OnTime r = 1) ∧
  kpi_section [] ≠ Raises UndefinedMetric ∧
  avg_calls_late [] = NaN ∧
  avg_discount_late [] = NaN ∧
  on_time_rate [] ≠ Fin 100.
Proof.
  split; [|split; [|split; [|split]]].
  - intros r Hr. by apply not_elem_of_nil in Hr.
  - discriminate.
  - reflexivity.
  - reflexivity.
  - discriminate.
Qed.

Lemma C5_witness_one_on_time_row :
  ∃ m, kpi_section [Samples.on_time_ship] = Returns m ∧
       kpi_avg_calls_late m = NaN ∧
       kpi_avg_discount_late m = NaN ∧
       kpi_on_time_rate m = Fin 100 ∧
       kpi_late_rate m = Fin 0.
Proof.
  apply (C5_no_late_rows_nan_averages [Samples.on_time_ship]).
  - done.
  - intros r Hr. apply list_elem_of_singleton in Hr as ->. reflexivity.
Defined.

(** C6: for a view of four rows with on-time flags 1, 0, 1, 1 whose late
    row has 5 customer-care calls and a discount of 20, lines 86-93 give
    an on-time rate of 75, a late rate of 25 = 100 − 75, 5 average calls
    and 20 average discount among late rows. *)
Theorem C6_four_row_view_kpis (r1 r2 r3 r4 : Row) :
  OnTime r1 = 1 → OnTime r2 = 0 → OnTime r3 = 1 → OnTime r4 = 1 →
  Customer_care_calls r2 = 5 → Discount_offered r2 = 20 →
  ∃ m, kpi_section [r1; r2; r3; r4] = Returns m ∧
       kpi_total_orders m = 4 ∧
       kpi_on_time_rate m = Fin 75 ∧
       kpi_late_rate m = Fin 25 ∧
       kpi_avg_calls_late m = Fin 5 ∧
       kpi_avg_discount_late m = Fin 20 ∧
       kpi_late_rate m = subtract (of_int 100) (kpi_on_time_rate m).
Proof.
  intros H1 H2 H3 H4 Hcalls Hdiscount.
  eexists. split; [apply kpi_section_returns|]. cbn.
  assert (Hlate : late_rows [r1; r2; r3; r4] = [r2]).
  { unfold late_rows. cbn. by rewrite H1, H2, H3, H4. }
  assert (Hrate : on_time_rate [r1; r2; r3; r4] = Fin 75).
  { unfold on_time_rate. cbn. rewrite H1, H2, H3, H4. reflexivity. }
  unfold avg_calls_late, avg_discount_late, late_rate.
  rewrite Hlate, Hrate. cbn. rewrite Hcalls, Hdiscount.
  repeat split; reflexivity.
Qed.

Lemma C6_witness_four_rows :
  ∃ m, kpi_section Samples.four_rows = Returns m ∧
       kpi_total_orders m = 4 ∧
       kpi_on_time_rate m = Fin 75 ∧
       kpi_late_rate m = Fin 25 ∧
       kpi_avg_calls_late m = Fin 5 ∧
       kpi_avg_discount_late m = Fin 20 ∧
       kpi_late_rate m = subtract (of_int 100) (kpi_on_time_rate m).
Proof.
  apply (C6_four_row_view_kpis Samples.on_time_ship Samples.late_flight
           Samples.on_time_road Samples.on_time_flight); reflexivity.
Defined.

End KPIFacts.

(** ** The histogram of shipment mode by delivery flag *)

Module ChartFacts.
Import Series Filter Charts.

Lemma length_filter_fmap {A B} (f : A → B) (P : B → Prop)
    `{!∀ y, Decision (P y)} (l : list A) :
  length (filter P (f <$> l)) = length (filter (λ a, P (f a)) l).
Proof.
  induction l as [|a l IH]; [done|].
  cbn [fmap list_fmap]. rewrite !filter_cons.
  destruct (decide (P (f a))); cbn [length]; by rewrite IH.
Qed.
















End ChartFacts.

(** ** The correlation matrix *)

Module CorrFacts.
Import Corr.

#[local] Open Scope R_scope.

(** *** One column of the pass *)

Lemma x_moments_pass (l : list (Z * Z)) (st : welford) :
  x_moments (fold_left welford_step l st)
  = fold_left moments_step l.*1 (x_moments st).
Proof. revert st. induction l as [|p l IH]; intros st; [done|]. apply IH. Qed.

Lemma y_moments_pass (l : list (Z * Z)) (st : welford) :
  y_moments (fold_left welford_step l st)
  = fold_left moments_step l.*2 (y_moments st).
Proof. revert st. induction l as [|p l IH]; intros st; [done|]. apply IH. Qed.

Lemma zip_columns {A} (f g : A → Z) (l : list A) :
  (zip (f <$> l) (g <$> l)).*1 = f <$> l ∧
  (zip (f <$> l) (g <$> l)).*2 = g <$> l.
Proof. induction l as [|a l [IH1 IH2]]; [done|]. cbn. by rewrite IH1, IH2. Qed.

Lemma inv_INR_S (n : nat) : 0 < / INR (S n) <= 1.
Proof.
  assert (Hn : 1 <= INR (S n)).
  { rewrite S_INR. pose proof (pos_INR n). lra. }
  split.
  - apply Rinv_0_lt_compat. lra.
  - rewrite <- Rinv_1. apply Rinv_le_contravar; lra.
Qed.

Lemma inv_INR_SS (n : nat) : / INR (S (S n)) <= / 2.
Proof.
  apply Rinv_le_contravar; [lra|].
  rewrite !S_INR. pose proof (pos_INR n). lra.
Qed.

(** A step adds [d² (1 − 1/n)] to the sum of squared deviations. *)
Lemma moments_step_ssqdm (m : moments) (v : Z) :
  m_ssqdm (moments_step m v)
  = m_ssqdm m
    + (IZR v - m_mean m) * (IZR v - m_mean m) * (1 - / INR (S (m_nobs m))).
Proof. cbn. unfold Rdiv. ring. Qed.

Lemma moments_step_mono (m : moments) (v : Z) :
  m_ssqdm m <= m_ssqdm (moments_step m v).
Proof.
  rewrite moments_step_ssqdm.
  pose proof (inv_INR_S (m_nobs m)) as [_ Hk].
  pose proof (Rle_0_sqr (IZR v - m_mean m)) as Hd. unfold Rsqr in Hd.
  nra.
Qed.

Lemma moments_pass_mono (l : list Z) (m : moments) :
  m_ssqdm m <= m_ssqdm (fold_left moments_step l m).
Proof.
  revert m. induction l as [|v l IH]; intros m; cbn [fold_left]; [lra|].
  eapply Rle_trans; [apply moments_step_mono|apply IH].
Qed.

Lemma moments_pass_nobs (l : list Z) (m : moments) :
  m_nobs (fold_left moments_step l m) = (m_nobs m + length l)%nat.
Proof.
  revert m. induction l as [|v l IH]; intros m; cbn [fold_left length].
  - lia.
  - rewrite IH. cbn. lia.
Qed.

(** Rows that repeat the running mean leave the mean where it is and add
    nothing to the sum of squared deviations. *)
Lemma moments_pass_repeat (c : Z) (l : list Z) (m : moments) :
  Forall (λ v, v = c) l →
  m_mean m = IZR c →
  m_mean (fold_left moments_step l m) = IZR c ∧
  m_ssqdm (fold_left moments_step l m) = m_ssqdm m.
Proof.
  intros Hl. revert m.
  induction Hl as [|v l -> _ IH]; intros m Hm; [done|].
  cbn [fold_left].
  destruct (IH (moments_step m c)) as [IHm IHs].
  - cbn. rewrite Hm. unfold Rdiv. ring.
  - split; [done|]. rewrite IHs. cbn. rewrite Hm. unfold Rdiv. ring.
Qed.

(** After a first row the mean is its value and the sum still zero. *)
Lemma moments_first (c : Z) :
  m_mean (moments_step (mkMoments 0 0 0) c) = IZR c ∧
  m_ssqdm (moments_step (mkMoments 0 0 0) c) = 0.
Proof. cbn. split; field. Qed.

Lemma moments_constant (c : Z) (l : list Z) :
  Forall (λ v, v = c) l →
  m_ssqdm (fold_left moments_step l (mkMoments 0 0 0)) = 0.
Proof.
  intros Hl. destruct Hl as [|v l -> Hl]; [done|].
  cbn [fold_left]. destruct (moments_first c) as [Hm Hs].
  destruct (moments_pass_repeat c l _ Hl Hm) as [_ ->]. done.
Qed.

(** A first row that leaves the running mean makes the sum positive. *)
Lemma moments_varying (c y : Z) (pre rest : list Z) :
  Forall (λ v, v = c) pre →
  y ≠ c →
  0 < m_ssqdm (fold_left moments_step (c :: pre ++ y :: rest)
                 (mkMoments 0 0 0)).
Proof.
  intros Hpre Hy. cbn [fold_left].
  rewrite fold_left_app. cbn [fold_left].
  destruct (moments_first c) as [Hm Hs].
  destruct (moments_pass_repeat c pre _ Hpre Hm) as [Hm' Hs'].
  set (m := fold_left moments_step pre (moments_step (mkMoments 0 0 0) c))
    in *.
  eapply Rlt_le_trans; [|apply moments_pass_mono].
  rewrite moments_step_ssqdm, Hs', Hs, Hm'.
  assert (Hn : ∃ n, m_nobs m = S n).
  { exists (length pre). unfold m. rewrite moments_pass_nobs. cbn. lia. }
  destruct Hn as [n ->].
  pose proof (inv_INR_SS n) as Hk.
  assert (Hd : IZR y - IZR c ≠ 0).
  { intros Heq. apply Hy. apply eq_IZR. lra. }
  assert (Hsq : 0 < (IZR y - IZR c) * (IZR y - IZR c)).
  { apply Rsqr_pos_lt in Hd. exact Hd. }
  nra.
Qed.

(** A list with two different members starts with a run of one value
    followed by another value. *)
Lemma first_change (c : Z) (l : list Z) :
  (∃ y, y ∈ l ∧ y ≠ c) →
  ∃ pre y rest, l = pre ++ y :: rest ∧ Forall (λ v, v = c) pre ∧ y ≠ c.
Proof.
  induction l as [|a l IH]; intros (y & Hy & Hne).
  - by apply not_elem_of_nil in Hy.
  - destruct (decide (a = c)) as [->|Ha].
    + destruct IH as (pre & y' & rest & -> & Hpre & Hy').
      { exists y. split; [|done].
        apply elem_of_cons in Hy as [->|Hy]; [done|exact Hy]. }
      exists (c :: pre), y', rest. split; [done|]. split; [|done].
      by constructor.
    + exists [], a, l. by repeat split.
Qed.

(** *** One cell of the matrix *)

Lemma corr_x_moments (v : DataFrame) (x y : numeric_column) :
  x_moments (welford_pass (cell x <$> v) (cell y <$> v))
  = fold_left moments_step (cell x <$> v) (mkMoments 0 0 0).
Proof.
  unfold welford_pass. rewrite x_moments_pass.
  by destruct (zip_columns (cell x) (cell y) v) as [-> _].
Qed.

Lemma corr_y_moments (v : DataFrame) (x y : numeric_column) :
  y_moments (welford_pass (cell x <$> v) (cell y <$> v))
  = fold_left moments_step (cell y <$> v) (mkMoments 0 0 0).
Proof.
  unfold welford_pass. rewrite y_moments_pass.
  by destruct (zip_columns (cell x) (cell y) v) as [_ ->].
Qed.

Lemma nancorr_zero_ssqdm_x (xs ys : list Z) :
  ssqdm_x (welford_pass xs ys) = 0 → nancorr xs ys = NaN.
Proof.
  intros Hs. unfold nancorr. destruct (decide _); [done|].
  rewrite Hs, Rmult_0_l, sqrt_0. by destruct (Req_dec_T 0 0).
Qed.

Lemma nancorr_zero_ssqdm_y (xs ys : list Z) :
  ssqdm_y (welford_pass xs ys) = 0 → nancorr xs ys = NaN.
Proof.
  intros Hs. unfold nancorr. destruct (decide _); [done|].
  rewrite Hs, Rmult_0_r, sqrt_0. by destruct (Req_dec_T 0 0).
Qed.

Lemma constant_column (v : DataFrame) (x : numeric_column) :
  constant_on v x → ∃ c, Forall (λ z, z = c) (cell x <$> v).
Proof.
  intros Hc. destruct v as [|r v]; [by exists 0%Z|].
  exists (cell x r). apply Forall_fmap, Forall_forall. intros r' Hr'.
  cbn. apply Hc; [done|]. apply list_elem_of_here.
Qed.

Lemma nancorr_constant_first (v : DataFrame) (x y : numeric_column) :
  constant_on v x → nancorr (cell x <$> v) (cell y <$> v) = NaN.
Proof.
  intros Hc. apply constant_column in Hc as [c Hc].
  apply nancorr_zero_ssqdm_x.
  change (m_ssqdm (x_moments
    (welford_pass (cell x <$> v) (cell y <$> v))) = 0).
  rewrite corr_x_moments. by apply (moments_constant c).
Qed.

Lemma nancorr_constant_second (v : DataFrame) (x y : numeric_column) :
  constant_on v x → nancorr (cell y <$> v) (cell x <$> v) = NaN.
Proof.
  intros Hc. apply constant_column in Hc as [c Hc].
  apply nancorr_zero_ssqdm_y.
  change (m_ssqdm (y_moments
    (welford_pass (cell y <$> v) (cell x <$> v))) = 0).
  rewrite corr_y_moments. by apply (moments_constant c).
Qed.

(** The matrix is symmetric: both cells of a pair hold one result. *)
Lemma corr_symmetric (v : DataFrame) (x y : numeric_column) :
  corr v x y = corr v y x.
Proof.
  unfold corr.
  destruct (decide (position y ≤ position x)%nat) as [Hyx|Hyx],
           (decide (position x ≤ position y)%nat) as [Hxy|Hxy];
    try done; [|lia].
  assert (x = y) as ->; [|done].
  destruct x, y; cbn in Hyx, Hxy; try done; lia.
Qed.

(** A column with one value has NaN in its whole row of the matrix. *)
Lemma corr_constant_row (v : DataFrame) (x y : numeric_column) :
  constant_on v x → corr v x y = NaN.
Proof.
  intros Hc. unfold corr. destruct (decide _).
  - by apply nancorr_constant_first.
  - by apply nancorr_constant_second.
Qed.

(** And in its whole column. *)
Lemma corr_constant_column (v : DataFrame) (x y : numeric_column) :
  constant_on v x → corr v y x = NaN.
Proof. intros Hc. rewrite corr_symmetric. by apply corr_constant_row. Qed.

(** On a pair of equal columns the three sums advance together. *)
Lemma welford_diagonal (l : list (Z * Z)) (st : welford) :
  Forall (λ p, p.1 = p.2) l →
  meany st = meanx st → ssqdm_y st = ssqdm_x st → covxy st = ssqdm_x st →
  ssqdm_y (fold_left welford_step l st) = ssqdm_x (fold_left welford_step l st) ∧
  covxy (fold_left welford_step l st) = ssqdm_x (fold_left welford_step l st).
Proof.
  intros Hl. revert st.
  induction Hl as [|[a b] l Hab _ IH]; intros st Hm Hs Hc; [done|].
  cbn in Hab. subst b. cbn [fold_left].
  apply IH; cbn; rewrite ?Hm, ?Hs, ?Hc; reflexivity.
Qed.

Lemma zip_diagonal (xs : list Z) : Forall (λ p, p.1 = p.2) (zip xs xs).
Proof. induction xs as [|a xs IH]; cbn; by constructor. Qed.

Lemma varying_column (v : DataFrame) (x : numeric_column) :
  varies_on v x →
  ∃ c pre y rest,
    cell x <$> v = c :: pre ++ y :: rest ∧ Forall (λ z, z = c) pre ∧ y ≠ c.
Proof.
  intros (r1 & r2 & Hr1 & Hr2 & Hne).
  destruct v as [|r v]; [by apply not_elem_of_nil in Hr1|].
  destruct (first_change (cell x r) (cell x <$> v))
    as (pre & y & rest & Heq & Hpre & Hy).
  - destruct (decide (cell x r1 = cell x r)) as [H1|H1].
    + exists (cell x r2). split; [|congruence].
      apply elem_of_cons in Hr2 as [->|Hr2]; [congruence|].
      by apply list_elem_of_fmap_2.
    + exists (cell x r1). split; [|done].
      apply elem_of_cons in Hr1 as [->|Hr1]; [done|].
      by apply list_elem_of_fmap_2.
  - exists (cell x r), pre, y, rest. cbn [fmap list_fmap].
    fold (fmap (M:=list) (cell x) v). by rewrite Heq.
Qed.

(** A column with two different values has 1 on the diagonal. *)
Lemma corr_varying_diagonal (v : DataFrame) (x : numeric_column) :
  varies_on v x → corr v x x = Val 1.
Proof.
  intros Hv. unfold corr. rewrite decide_True by done. unfold nancorr.
  set (st := welford_pass (cell x <$> v) (cell x <$> v)).
  assert (Hx : x_moments st
               = fold_left moments_step (cell x <$> v) (mkMoments 0 0 0))
    by apply corr_x_moments.
  destruct (welford_diagonal (zip (cell x <$> v) (cell x <$> v)) welford_init)
    as [Hsy Hcov]; [apply zip_diagonal|done..|].
  fold (welford_pass (cell x <$> v) (cell x <$> v)) in Hsy, Hcov.
  fold st in Hsy, Hcov.
  apply varying_column in Hv as (c & pre & y & rest & Hcol & Hpre & Hy).
  assert (Hpos : 0 < ssqdm_x st).
  { change (0 < m_ssqdm (x_moments st)). rewrite Hx, Hcol.
    by apply moments_varying. }
  assert (Hn : nobs st ≠ 0%nat).
  { change (m_nobs (x_moments st) ≠ 0%nat).
    rewrite Hx, moments_pass_nobs, Hcol. cbn. lia. }
  rewrite decide_False by lia.
  rewrite Hsy, Hcov, sqrt_square by lra.
  destruct (Req_dec_T (ssqdm_x st) 0) as [Hz|Hnz]; [lra|].
  f_equal. by field.
Qed.

Lemma constant_or_varies (v : DataFrame) (x : numeric_column) :
  constant_on v x ∨ varies_on v x.
Proof.
  destruct (decide (Exists (λ r1, Exists (λ r2, cell x r1 ≠ cell x r2) v) v))
    as [He|Hn].
  - right. apply Exists_exists in He as (r1 & Hr1 & He).
    apply Exists_exists in He as (r2 & Hr2 & Hne). by exists r1, r2.
  - left. intros r1 r2 Hr1 Hr2.
    destruct (decide (cell x r1 = cell x r2)) as [|Hne]; [done|].
    exfalso. apply Hn. apply Exists_exists. exists r1. split; [done|].
    apply Exists_exists. by exists r2.
Qed.

(** The sample view of two on-time rows: one flag, two costs. *)
Lemma two_on_time_flag_constant :
  constant_on Samples.two_on_time col_OnTime.
Proof.
  intros r1 r2 Hr1 Hr2. unfold Samples.two_on_time in *.
  repeat match goal with
         | H : _ ∈ _ :: _ |- _ => apply elem_of_cons in H as [->|H]
         | H : _ ∈ [] |- _ => by apply not_elem_of_nil in H
         end; reflexivity.
Qed.

Lemma two_on_time_cost_varies :
  varies_on Samples.two_on_time col_Cost_of_the_Product.
Proof.
  exists Samples.on_time_ship, Samples.on_time_road.
  split; [apply list_elem_of_here|].
  split; [apply list_elem_of_further, list_elem_of_here|].
  discriminate.
Qed.

(** C9, as the library computes it: a numeric column with two different
    values in the view has exactly 1 on the diagonal of the correlation
    matrix; a numeric column with one value in the view (or a view with
    no rows) has the NaN marker in every cell of its row and of its
    column, the diagonal cell included. *)
Theorem C9_corr_diagonal_one_or_nan (v : DataFrame) (x : numeric_column) :
  (varies_on v x → corr v x x = Val 1) ∧
  (constant_on v x → ∀ y, corr v x y = NaN ∧ corr v y x = NaN).
Proof.
  split.
  - apply corr_varying_diagonal.
  - intros Hc y. split.
    + by apply corr_constant_row.
    + by apply corr_constant_column.
Qed.

(** C9 fails as stated: two rows that differ in cost and are both on
    time make a view with two distinct rows, and the diagonal cell of the
    on-time flag is NaN, not 1. *)
Lemma C9_counterexample_constant_flag :
  two_distinct_rows Samples.two_on_time ∧
  corr Samples.two_on_time col_OnTime col_OnTime = NaN ∧
  corr Samples.two_on_time col_OnTime col_OnTime ≠ Val 1.
Proof.
  split; [|split].
  - exists Samples.on_time_ship, Samples.on_time_road.
    split; [apply list_elem_of_here|].
    split; [apply list_elem_of_further, list_elem_of_here|].
    discriminate.
  - apply corr_constant_row, two_on_time_flag_constant.
  - rewrite corr_constant_row by apply two_on_time_flag_constant.
    discriminate.
Qed.

Lemma C9_witness_two_on_time :
  corr Samples.two_on_time col_Cost_of_the_Product col_Cost_of_the_Product
    = Val 1 ∧
  (∀ y, corr Samples.two_on_time col_OnTime y = NaN ∧
        corr Samples.two_on_time y col_OnTime = NaN).
Proof.
  split.
  - apply (C9_corr_diagonal_one_or_nan Samples.two_on_time
             col_Cost_of_the_Product).
    apply two_on_time_cost_varies.
  - apply (C9_corr_diagonal_one_or_nan Samples.two_on_time col_OnTime).
    apply two_on_time_flag_constant.
Defined.

End CorrFacts.

(** ** More on the sidebar selection and the filter (lines 45-75) *)

Module FilterMore.
Import Filter.

(** X1: a fresh session, whose four multiselects start from
    [df[col].unique()], shows the whole dataset. *)
Theorem X1_default_selection_keeps_dataset (df : DataFrame) :
  filtered_df df (default_spec df) = df.
Proof.
  rewrite FilterFacts.filtered_df_filter. apply KPIFacts.filter_all.
  apply Forall_forall. intros r Hr. unfold accepted, default_spec. cbn.
  rewrite !FilterFacts.elem_of_unique.
  repeat split; by apply list_elem_of_fmap_2.
Qed.

Lemma unique_sublist {A} `{EqDecision A} (column : list A) :
  unique column `sublist_of` column.
Proof.
  induction column as [|x column IH]; cbn; [done|].
  constructor. etrans; [apply sublist_filter|exact IH].
Qed.

(** Reading a column from its first cell to its last, a value is added
    to the distinct values when it has not been seen before. *)
Lemma unique_snoc {A} `{EqDecision A} (l : list A) (x : A) :
  unique (l ++ [x]) = if decide (x ∈ l) then unique l else unique l ++ [x].
Proof.
  induction l as [|a l IH]; [done|].
  cbn [app unique]. rewrite IH.
  destruct (decide (x ∈ l)) as [Hin|Hnin].
  - by rewrite decide_True by (by apply list_elem_of_further).
  - rewrite filter_app, filter_cons, filter_nil.
    destruct (decide (x ≠ a)) as [Hne|He].
    + rewrite decide_False; [done|].
      intros Hin. apply elem_of_cons in Hin as [?|?]; done.
    + apply dec_stable in He as ->.
      rewrite decide_True by apply list_elem_of_here. by rewrite app_nil_r.
Qed.

(** X2: the options a multiselect offers are the values of the column,
    each once, in the order in which they first appear: they are a
    subsequence of the column that starts with its first value, and going
    through the column cell by cell, a cell adds its value at the end of
    the options when no earlier cell has that value, and adds nothing
    otherwise. *)
Theorem X2_unique_distinct_values_in_order {A} `{EqDecision A}
    (column : list A) :
  NoDup (unique column) ∧
  (∀ x, x ∈ unique column ↔ x ∈ column) ∧
  unique column `sublist_of` column ∧
  head (unique column) = head column ∧
  (∀ l x, column = l ++ [x] →
     unique column = if decide (x ∈ l) then unique l else unique l ++ [x]).
Proof.
  split; [apply FilterFacts.unique_NoDup|].
  split; [intros x; apply FilterFacts.elem_of_unique|].
  split; [apply unique_sublist|]. split; [by destruct column|].
  intros l x ->. apply unique_snoc.
Qed.

Lemma filtered_twice (df : DataFrame) (s s' : FilterSpec) :
  filtered_df (filtered_df df s) s'
  = filter (λ r, accepted s' r ∧ accepted s r) df.
Proof. by rewrite !FilterFacts.filtered_df_filter, list_filter_filter. Qed.

(** X3: filtering a filtered frame again by the same selection changes
    nothing. *)
Theorem X3_filter_idempotent (df : DataFrame) (s : FilterSpec) :
  filtered_df (filtered_df df s) s = filtered_df df s.
Proof.
  rewrite filtered_twice, FilterFacts.filtered_df_filter.
  apply list_filter_iff. tauto.
Qed.

(** X4: two selections can be applied in either order; the result keeps
    the rows that both accept. *)
Theorem X4_filters_commute (df : DataFrame) (s s' : FilterSpec) :
  filtered_df (filtered_df df s) s' = filtered_df (filtered_df df s') s ∧
  (∀ r, r ∈ filtered_df (filtered_df df s) s' ↔
        r ∈ df ∧ accepted s r ∧ accepted s' r).
Proof.
  rewrite !filtered_twice. split.
  - apply list_filter_iff. tauto.
  - intros r. rewrite list_elem_of_filter. tauto.
Qed.

Lemma list_filter_ext_in {A} (P Q : A → Prop)
    `{!∀ a, Decision (P a)} `{!∀ a, Decision (Q a)} (l : list A) :
  (∀ a, a ∈ l → P a ↔ Q a) → filter P l = filter Q l.
Proof.
  induction l as [|a l IH]; intros Hext; [done|].
  rewrite !filter_cons, IH.
  - destruct (decide (P a)) as [Hp|Hp], (decide (Q a)) as [Hq|Hq];
      try done; exfalso.
    + apply Hq, (Hext a); [apply list_elem_of_here|done].
    + apply Hp, (Hext a); [apply list_elem_of_here|done].
  - intros a' Ha'. apply Hext. by apply list_elem_of_further.
Qed.

(** X5: only the membership of the dataset's own values in the selected
    lists matters: repeating a value, reordering the list, or ticking a
    value no row has does not change the filtered frame. *)
Theorem X5_selection_matters_as_set_on_domain
    (df : DataFrame) (s s' : FilterSpec) :
  same_on_domain df s s' → filtered_df df s = filtered_df df s'.
Proof.
  intros (H1 & H2 & H3 & H4). rewrite !FilterFacts.filtered_df_filter.
  apply list_filter_ext_in. intros r Hr. unfold accepted.
  rewrite (H1 (Mode_of_Shipment r)), (H2 (Warehouse_block r)),
    (H3 (Product_importance r)), (H4 (Gender r));
    [done|by apply list_elem_of_fmap_2..].
Qed.

Lemma X5_witness_untidy_selection :
  filtered_df Samples.four_rows Samples.ships_only
  = filtered_df Samples.four_rows Samples.ships_only_untidy.
Proof.
  apply (X5_selection_matters_as_set_on_domain Samples.four_rows
           Samples.ships_only Samples.ships_only_untidy).
  unfold same_on_domain. cbn.
  repeat split; intros Hx;
    repeat match goal with
           | H : _ ∈ _ :: _ |- _ => apply elem_of_cons in H as [?|H]
           | H : _ ∈ [] |- _ => by apply not_elem_of_nil in H
           end;
    subst; try discriminate;
    repeat first [apply list_elem_of_here | apply list_elem_of_further].
Defined.

Lemma filtered_df_some_empty (df : DataFrame) (s : FilterSpec) :
  some_empty s → filtered_df df s = [].
Proof.
  intros He. rewrite FilterFacts.filtered_df_filter.
  induction df as [|r df IH]; [done|].
  rewrite filter_cons, IH, decide_False; [done|].
  intros (H1 & H2 & H3 & H4).
  destruct He as [He|[He|[He|He]]]; rewrite He in *;
    eapply not_elem_of_nil; eassumption.
Qed.

End FilterMore.

(** ** More on the KPI calculations (lines 86-93) *)

Module KPIMore.
Import Float64 Series Filter KPI KPIFacts.

(** X6: with nothing ticked in one of the multiselects, lines 86-93 still
    run to the end: the total is 0 and every rate and average is NaN. *)
Theorem X6_empty_selection_all_kpis_nan (df : DataFrame) (s : FilterSpec) :
  some_empty s →
  kpi_section (filtered_df df s)
  = Returns (mkMetricsSummary 0 NaN NaN NaN NaN NaN).
Proof. intros He. by rewrite FilterMore.filtered_df_some_empty. Qed.

Lemma X6_witness_no_warehouse :
  kpi_section (filtered_df Samples.four_rows Samples.no_warehouse)
  = Returns (mkMetricsSummary 0 NaN NaN NaN NaN NaN).
Proof.
  apply (X6_empty_selection_all_kpis_nan Samples.four_rows
           Samples.no_warehouse).
  right. left. reflexivity.
Defined.

(** X7: the two delivery rates are defined together: both are NaN on
    the empty view and both are numbers on every other view; the late
    rate is then 0 exactly when the on-time rate is 100, and is not
    negative exactly when the on-time rate is at most 100. *)
Theorem X7_rates_defined_together (v : DataFrame) :
  (v = [] ∧ on_time_rate v = NaN ∧ late_rate v = NaN) ∨
  (v ≠ [] ∧ ∃ p q, on_time_rate v = Fin p ∧ late_rate v = Fin q ∧
                   ((q == 0)%Q ↔ (p == 100)%Q) ∧
                   ((0 <= q)%Q ↔ (p <= 100)%Q)).
Proof.
  destruct v as [|r v]; [by left|]. right. split; [done|].
  unfold late_rate.
  rewrite on_time_rate_nonempty by apply len_cons_nonzero.
  do 2 eexists. split; [done|]. split; [done|].
  rewrite (Qred_correct (_ - _)). change (inject_Z 100) with 100%Q.
  split; split; intros Hq; lra.
Qed.

(** X8: when every flag is 0 or 1, both rates of a view that has rows are
    percentages, between 0 and 100. *)
Theorem X8_rates_are_percentages (v : DataFrame) :
  v ≠ [] →
  (∀ r, r ∈ v → OnTime r = 0 ∨ OnTime r = 1) →
  ∃ p q, on_time_rate v = Fin p ∧ late_rate v = Fin q ∧
         (0 <= p)%Q ∧ (p <= 100)%Q ∧ (0 <= q)%Q ∧ (q <= 100)%Q.
Proof.
  intros Hne Hflags.
  assert (Hn : 0 < total_orders v).
  { unfold total_orders, len. destruct v; [done|]. cbn [length]. lia. }
  pose proof (sum_flags_bounds v Hflags) as Hs. fold (total_orders v) in Hs.
  unfold late_rate. rewrite on_time_rate_nonempty by lia.
  do 2 eexists. split; [done|]. split; [done|].
  set (x := (inject_Z (sum (OnTime <$> v)) / inject_Z (total_orders v))%Q).
  assert (Hx : (0 <= x)%Q ∧ (x <= 1)%Q).
  { unfold x. split.
    - apply Qle_shift_div_l; [by rewrite <- (Zlt_Qlt 0)|].
      rewrite Qmult_0_l. rewrite <- (Zle_Qle 0). lia.
    - apply Qle_shift_div_r; [by rewrite <- (Zlt_Qlt 0)|].
      rewrite Qmult_1_l. rewrite <- Zle_Qle. lia. }
  destruct Hx as [Hx0 Hx1].
  rewrite !Qred_correct. change (inject_Z 100) with 100%Q.
  repeat split; lra.
Qed.

Lemma X8_witness_four_rows :
  ∃ p q, on_time_rate Samples.four_rows = Fin p ∧
         late_rate Samples.four_rows = Fin q ∧
         (0 <= p)%Q ∧ (p <= 100)%Q ∧ (0 <= q)%Q ∧ (q <= 100)%Q.
Proof.
  apply (X8_rates_are_percentages Samples.four_rows); [done|].
  intros r Hr. unfold Samples.four_rows in Hr.
  repeat (apply elem_of_cons in Hr as [->|Hr]);
    [by right|by left|by right|by right|by apply not_elem_of_nil in Hr].
Defined.

Lemma fmap_nil_iff {A B} (f : A → B) (l : list A) : f <$> l = [] ↔ l = [].
Proof. by destruct l. Qed.

(** X9: each of the two late-row averages is NaN exactly when the view
    has no late row. *)
Theorem X9_late_averages_nan_iff_no_late_row (v : DataFrame) :
  (avg_calls_late v = NaN ↔ ∀ r, r ∈ v → OnTime r ≠ 0) ∧
  (avg_discount_late v = NaN ↔ ∀ r, r ∈ v → OnTime r ≠ 0).
Proof.
  unfold avg_calls_late, avg_discount_late.
  rewrite !mean_nan_iff, !fmap_nil_iff, late_rows_late. unfold Spec.late.
  split; apply filter_nil_iff.
Qed.

(** X10: the mean of a column that has cells is a number, never NaN, and
    lies between any two bounds of the cells. *)
Theorem X10_mean_within_bounds (lo hi : Z) (xs : list Z) :
  xs ≠ [] →
  (∀ x, x ∈ xs → lo ≤ x ≤ hi) →
  ∃ q, mean xs = Fin q ∧ (inject_Z lo <= q)%Q ∧ (q <= inject_Z hi)%Q.
Proof.
  intros Hne Hb. pose proof (sum_bounds lo hi xs Hb) as Hs.
  destruct xs as [|x xs]; [done|]. unfold mean.
  rewrite true_divide_int by apply len_cons_nonzero.
  eexists. split; [done|].
  assert (Hn : 0 < len (x :: xs)) by (unfold len; cbn [length]; lia).
  rewrite Qred_correct. split.
  - apply Qle_shift_div_l; [by rewrite <- (Zlt_Qlt 0)|].
    rewrite <- inject_Z_mult, <- Zle_Qle. lia.
  - apply Qle_shift_div_r; [by rewrite <- (Zlt_Qlt 0)|].
    rewrite <- inject_Z_mult, <- Zle_Qle. lia.
Qed.

Lemma X10_witness_calls :
  ∃ q, mean [4; 5; 2] = Fin q ∧ (inject_Z 2 <= q)%Q ∧ (q <= inject_Z 5)%Q.
Proof.
  apply (X10_mean_within_bounds 2 5 [4; 5; 2]); [done|].
  intros x Hx. repeat (apply elem_of_cons in Hx as [->|Hx]); try lia.
  by apply not_elem_of_nil in Hx.
Defined.

Lemma length_filter_split {A} (f : A → Z) (m : Q) (l : list A) :
  (length (filter (λ a, (m < inject_Z (f a))%Q) l)
   + length (filter (λ a, (inject_Z (f a) <= m)%Q) l) = length l)%nat.
Proof.
  induction l as [|a l IH]; [done|]. rewrite !filter_cons.
  destruct (decide (m < inject_Z (f a))%Q) as [Hlt|Hge].
  - rewrite decide_False by (by apply Qlt_not_le). cbn [length]. lia.
  - rewrite decide_True by (by apply Qnot_lt_le). cbn [length]. lia.
Qed.

(** X12: at most half of the rows of a view are high-value rows. *)
Theorem X12_high_value_at_most_half (v : DataFrame) :
  2 * len (high_value v) ≤ len v.
Proof.
  rewrite high_value_highValue. unfold Spec.highValue, len.
  destruct (Spec.median (Cost_of_the_Product <$> v)) as [m|] eqn:Hm;
    [|cbn; lia].
  apply median_is_middle in Hm as [Hlow _].
  rewrite (ChartFacts.length_filter_fmap Cost_of_the_Product
             (λ x, (inject_Z x <= m)%Q)) in Hlow.
  rewrite length_fmap in Hlow.
  pose proof (length_filter_split Cost_of_the_Product m v). lia.
Qed.

(** X13: when all rows of the view have one cost, no row is above the
    median: there is no high-value row and the high-value late rate is
    NaN. *)
Theorem X13_equal_costs_no_high_value (v : DataFrame) :
  (∀ r1 r2, r1 ∈ v → r2 ∈ v →
            Cost_of_the_Product r1 = Cost_of_the_Product r2) →
  high_value v = [] ∧ high_value_late_rate v = NaN.
Proof.
  intros Hsame.
  assert (Hnil : high_value v = []); [|by rewrite
    (proj2 (high_value_late_rate_nan_iff v) Hnil)].
  rewrite high_value_highValue. unfold Spec.highValue.
  destruct (Spec.median (Cost_of_the_Product <$> v)) as [m|] eqn:Hm; [|done].
  destruct v as [|r0 v]; [done|].
  apply median_is_middle in Hm as [Hlow _].
  destruct (filter (λ x, (inject_Z x <= m)%Q)
              (Cost_of_the_Product <$> r0 :: v)) as [|c cs] eqn:Hf;
    [cbn in Hlow; lia|].
  assert (Hc : c ∈ filter (λ x, (inject_Z x <= m)%Q)
                 (Cost_of_the_Product <$> r0 :: v))
    by (rewrite Hf; apply list_elem_of_here).
  apply list_elem_of_filter in Hc as [Hcm Hc].
  apply list_elem_of_fmap in Hc as (rc & -> & Hrc).
  apply filter_nil_iff. intros r Hr Hlt.
  rewrite (Hsame r rc Hr Hrc) in Hlt. by apply Qlt_not_le in Hlt.
Qed.

Lemma X13_witness_same_cost :
  high_value Samples.same_cost = [] ∧
  high_value_late_rate Samples.same_cost = NaN.
Proof.
  apply (X13_equal_costs_no_high_value Samples.same_cost).
  intros r1 r2 Hr1 Hr2. unfold Samples.same_cost in *.
  repeat (apply elem_of_cons in Hr1 as [->|Hr1]);
    try (by apply not_elem_of_nil in Hr1);
    repeat (apply elem_of_cons in Hr2 as [->|Hr2]);
    try (by apply not_elem_of_nil in Hr2); reflexivity.
Defined.

End KPIMore.

(** ** The rates with the rounding of binary64 *)

Module Binary64Facts.

(** X11: the high-value late rate is not always the late rate of the
    high-value rows.  On ten rows of which five are high-value rows, four
    of these on time, line 93 gives (1 − 4/5) × 100 = 20 − 2⁻⁴⁸ (printed
    19.999999999999996), while the late rate of line 88 on the five
    high-value rows is 100 − (4/5) × 100 = 20; without rounding both
    are 20. *)
Example X11_high_value_late_rate_rounded_four_of_five :
  Series.len (KPI.high_value Samples.four_of_five_high) = 5 ∧
  Series.sum (OnTime <$> KPI.high_value Samples.four_of_five_high) = 4 ∧
  Binary64.to_Q (Binary64.high_value_late_rate Samples.four_of_five_high)
  = Some (5629499534213119 # 281474976710656) ∧
  Binary64.to_Q (Binary64.late_rate (KPI.high_value Samples.four_of_five_high))
  = Some 20%Q ∧
  KPI.high_value_late_rate Samples.four_of_five_high = Float64.Fin 20.
Proof. repeat split; vm_compute; reflexivity. Qed.

(** X25: on twenty-five rows of which seven are on time, line 87 gives
    (7/25) × 100 = 28 + 2⁻⁴⁸ (printed 28.000000000000004), not 28, and
    line 88 gives a late rate of 72; without rounding the on-time rate
    is 28. *)
Example X25_on_time_rate_rounded_seven_of_25 :
  KPI.total_orders Samples.seven_of_25 = 25 ∧
  Series.sum (OnTime <$> Samples.seven_of_25) = 7 ∧
  Binary64.to_Q (Binary64.on_time_rate Samples.seven_of_25)
  = Some (7881299347898369 # 281474976710656) ∧
  Binary64.on_time_rate Samples.seven_of_25 ≠ Binary64.of_int 28 ∧
  Binary64.to_Q (Binary64.late_rate Samples.seven_of_25) = Some 72%Q ∧
  KPI.on_time_rate Samples.seven_of_25 = Float64.Fin 28.
Proof.
  split; [|split; [|split; [|split; [|split]]]];
    try (vm_compute; reflexivity).
  vm_compute. discriminate.
Qed.


End Binary64Facts.

(** ** The other charts *)

Module AggregatesFacts.
Import Filter Float64 Charts Aggregates.

Lemma warehouse_perf_blocks (v : DataFrame) :
  (warehouse_perf v).*1 = merge_sort String.le (unique (Warehouse_block <$> v)).
Proof.
  unfold warehouse_perf. rewrite <- list_fmap_compose.
  induction (merge_sort String.le (unique (Warehouse_block <$> v)))
    as [|b bs IH]; [done|]. cbn. by rewrite IH.
Qed.

(** X14: the warehouse table has one row per warehouse block that occurs
    in the view, no block twice, and the blocks are in sorted order. *)
Theorem X14_warehouse_perf_blocks_sorted_distinct (v : DataFrame) :
  (∀ block, block ∈ (warehouse_perf v).*1 ↔ block ∈ Warehouse_block <$> v) ∧
  NoDup (warehouse_perf v).*1 ∧
  StronglySorted String.le (warehouse_perf v).*1.
Proof.
  rewrite warehouse_perf_blocks. split; [|split].
  - intros block. rewrite merge_sort_Permutation.
    apply FilterFacts.elem_of_unique.
  - rewrite merge_sort_Permutation. apply FilterFacts.unique_NoDup.
  - apply StronglySorted_merge_sort; apply _.
Qed.

Lemma warehouse_perf_row (v : DataFrame) (block : string) (y : float64) :
  (block, y) ∈ warehouse_perf v ↔
  block ∈ Warehouse_block <$> v ∧
  y = Series.mean (OnTime <$> block_rows v block).
Proof.
  unfold warehouse_perf. rewrite list_elem_of_fmap.
  setoid_rewrite merge_sort_Permutation.
  setoid_rewrite FilterFacts.elem_of_unique. split.
  - intros (b & Heq & Hb). inversion Heq; subst. done.
  - intros (Hb & ->). by exists block.
Qed.

Lemma block_rows_nonempty (v : DataFrame) (block : string) :
  block ∈ Warehouse_block <$> v → block_rows v block ≠ [].
Proof.
  intros Hb Hnil. apply list_elem_of_fmap in Hb as (r & -> & Hr).
  assert (Hin : r ∈ block_rows v (Warehouse_block r))
    by (by apply list_elem_of_filter).
  rewrite Hnil in Hin. by apply not_elem_of_nil in Hin.
Qed.

(** X15: every row of the warehouse table holds a number, never NaN:
    the block of the row has rows in the view.  The number is between 0
    and 1 when the flags of the block are 0 or 1, exactly 1 when all rows
    of the block are on time and exactly 0 when all of them are late. *)
Theorem X15_warehouse_perf_means_defined (v : DataFrame)
    (block : string) (y : float64) :
  (block, y) ∈ warehouse_perf v →
  block_rows v block ≠ [] ∧
  ∃ q, y = Fin q ∧
       ((∀ r, r ∈ block_rows v block → OnTime r = 0 ∨ OnTime r = 1) →
        (0 <= q)%Q ∧ (q <= 1)%Q) ∧
       ((∀ r, r ∈ block_rows v block → OnTime r = 1) → q = 1%Q) ∧
       ((∀ r, r ∈ block_rows v block → OnTime r = 0) → q = 0%Q).
Proof.
  intros Hrow. apply warehouse_perf_row in Hrow as [Hb ->].
  pose proof (block_rows_nonempty v block Hb) as Hne. split; [done|].
  destruct (KPIFacts.mean_of_flags (OnTime <$> block_rows v block))
    as (q & -> & Hunit & Hone & Hzero).
  { by destruct (block_rows v block). }
  assert (Hcells : ∀ P : Z → Prop,
    (∀ r, r ∈ block_rows v block → P (OnTime r)) →
    ∀ x, x ∈ OnTime <$> block_rows v block → P x).
  { intros P HP x Hx. apply list_elem_of_fmap in Hx as (r & -> & Hr). auto. }
  exists q. split; [done|]. split; [|split]; intros Hflags.
  - apply Hunit, (Hcells (λ x, x = 0 ∨ x = 1) Hflags).
  - apply Hone, (Hcells (λ x, x = 1) Hflags).
  - apply Hzero, (Hcells (λ x, x = 0) Hflags).
Qed.

Lemma X15_witness_block_A :
  block_rows Samples.four_rows "A" ≠ [] ∧
  ∃ q, Fin 1 = Fin q ∧
       ((∀ r, r ∈ block_rows Samples.four_rows "A" →
              OnTime r = 0 ∨ OnTime r = 1) →
        (0 <= q)%Q ∧ (q <= 1)%Q) ∧
       ((∀ r, r ∈ block_rows Samples.four_rows "A" → OnTime r = 1) →
        q = 1%Q) ∧
       ((∀ r, r ∈ block_rows Samples.four_rows "A" → OnTime r = 0) →
        q = 0%Q).
Proof.
  apply (X15_warehouse_perf_means_defined Samples.four_rows "A" (Fin 1)).
  vm_compute. apply list_elem_of_here.
Defined.

(** The traces of a chart coloured by [OnTime] split the rows of the
    frame: put one after the other they are the frame, reordered. *)
Lemma trace_rows_permutation (fs : list Z) (v : DataFrame) :
  NoDup fs →
  (∀ r, r ∈ v → OnTime r ∈ fs) →
  concat ((λ f, trace_rows v f) <$> fs) ≡ₚ v.
Proof.
  intros Hnd. revert v.
  induction Hnd as [|f fs Hf Hnd IH]; intros v Hcover.
  - destruct v as [|r v]; [done|].
    specialize (Hcover r (list_elem_of_here _ _)).
    by apply not_elem_of_nil in Hcover.
  - cbn [fmap list_fmap concat].
    etrans; [|apply (filter_app_complement (λ r, OnTime r = f) v)].
    apply Permutation_app; [done|].
    rewrite <- (IH (filter (λ r, ¬ OnTime r = f) v)).
    + apply reflexive_eq. f_equal. apply list_fmap_ext. intros i g Hg.
      unfold trace_rows. rewrite list_filter_filter.
      apply list_filter_iff. intros r. split; [|tauto].
      intros Hr. split; [done|]. intros Hrf. apply Hf.
      apply list_elem_of_lookup_2 in Hg. congruence.
    + intros r Hr. apply list_elem_of_filter in Hr as [Hne Hr].
      specialize (Hcover r Hr). apply elem_of_cons in Hcover as [?|?]; done.
Qed.

(** X17: the boxes of the discount chart are drawn from all the discounts
    of the view, each discount in exactly one box, and no box is empty. *)
Theorem X17_box_plot_partitions_discounts (v : DataFrame) :
  concat (fig3 v).*2 ≡ₚ Discount_offered <$> v ∧
  (∀ flag discounts, (flag, discounts) ∈ fig3 v → discounts ≠ []) ∧
  (fig3 v).*1 = unique (OnTime <$> v).
Proof.
  unfold fig3. split; [|split].
  - rewrite <- list_fmap_compose.
    transitivity (Discount_offered <$>
      concat ((λ f, trace_rows v f) <$> unique (OnTime <$> v))).
    + apply reflexive_eq.
      induction (unique (OnTime <$> v)) as [|f fs IH]; [done|].
      cbn. by rewrite fmap_app, IH.
    + apply fmap_Permutation, trace_rows_permutation.
      * apply FilterFacts.unique_NoDup.
      * intros r Hr. apply FilterFacts.elem_of_unique.
        by apply list_elem_of_fmap_2.
  - intros flag discounts Hin Hnil.
    apply list_elem_of_fmap in Hin as (f & Heq & Hf).
    injection Heq as -> ->.
    apply (proj1 (FilterFacts.elem_of_unique _ _)) in Hf.
    apply list_elem_of_fmap in Hf as (r & -> & Hr).
    apply KPIMore.fmap_nil_iff in Hnil.
    assert (Hin : r ∈ trace_rows v (OnTime r))
      by (by apply list_elem_of_filter).
    rewrite Hnil in Hin. by apply not_elem_of_nil in Hin.
  - rewrite <- list_fmap_compose.
    induction (unique (OnTime <$> v)) as [|f fs IH]; [done|].
    cbn. by rewrite IH.
Qed.

End AggregatesFacts.

(** ** More on the correlation matrix (line 173) *)

Module CorrMore.
Import Corr CorrFacts.

#[local] Open Scope R_scope.

Lemma ssqdm_x_nonneg (v : DataFrame) (x y : numeric_column) :
  0 <= ssqdm_x (welford_pass (cell x <$> v) (cell y <$> v)).
Proof.
  change (0 <= m_ssqdm (x_moments
    (welford_pass (cell x <$> v) (cell y <$> v)))).
  rewrite corr_x_moments. apply (moments_pass_mono _ (mkMoments 0 0 0)).
Qed.

Lemma ssqdm_y_nonneg (v : DataFrame) (x y : numeric_column) :
  0 <= ssqdm_y (welford_pass (cell x <$> v) (cell y <$> v)).
Proof.
  change (0 <= m_ssqdm (y_moments
    (welford_pass (cell x <$> v) (cell y <$> v)))).
  rewrite corr_y_moments. apply (moments_pass_mono _ (mkMoments 0 0 0)).
Qed.

Lemma ssqdm_x_zero_iff (v : DataFrame) (x y : numeric_column) :
  ssqdm_x (welford_pass (cell x <$> v) (cell y <$> v)) = 0 ↔ constant_on v x.
Proof.
  change (m_ssqdm (x_moments
    (welford_pass (cell x <$> v) (cell y <$> v))) = 0 ↔ constant_on v x).
  rewrite corr_x_moments. split.
  - intros Hz. destruct (constant_or_varies v x) as [|Hv]; [done|].
    apply varying_column in Hv as (c & pre & z & rest & Hcol & Hpre & Hz').
    rewrite Hcol in Hz.
    pose proof (moments_varying c z pre rest Hpre Hz'). lra.
  - intros Hc. apply constant_column in Hc as [c Hc].
    by apply (moments_constant c).
Qed.

Lemma ssqdm_y_zero_iff (v : DataFrame) (x y : numeric_column) :
  ssqdm_y (welford_pass (cell x <$> v) (cell y <$> v)) = 0 ↔ constant_on v y.
Proof.
  change (m_ssqdm (y_moments
    (welford_pass (cell x <$> v) (cell y <$> v))) = 0 ↔ constant_on v y).
  rewrite corr_y_moments. split.
  - intros Hz. destruct (constant_or_varies v y) as [|Hv]; [done|].
    apply varying_column in Hv as (c & pre & z & rest & Hcol & Hpre & Hz').
    rewrite Hcol in Hz.
    pose proof (moments_varying c z pre rest Hpre Hz'). lra.
  - intros Hc. apply constant_column in Hc as [c Hc].
    by apply (moments_constant c).
Qed.

Lemma nancorr_nan_iff (v : DataFrame) (x y : numeric_column) :
  nancorr (cell x <$> v) (cell y <$> v) = NaN ↔
  constant_on v x ∨ constant_on v y.
Proof.
  split.
  - unfold nancorr. intros Hnan.
    destruct (decide _) as [Hn|Hn].
    + left. apply ssqdm_x_zero_iff with (y := y).
      assert (Hv : v = []).
      { assert (Hlen : nobs (welford_pass (cell x <$> v) (cell y <$> v))
                       = length v).
        { change (m_nobs (x_moments
            (welford_pass (cell x <$> v) (cell y <$> v))) = length v).
          rewrite corr_x_moments, moments_pass_nobs, length_fmap. done. }
        rewrite Hlen in Hn. destruct v; [done|]. cbn in Hn. lia. }
      by subst v.
    + destruct (Req_dec_T _ 0) as [Hz|Hz]; [|done].
      apply sqrt_eq_0 in Hz.
      * apply Rmult_integral in Hz as [Hz|Hz].
        -- left. by apply ssqdm_x_zero_iff in Hz.
        -- right. by apply ssqdm_y_zero_iff in Hz.
      * apply Rmult_le_pos; [apply ssqdm_x_nonneg|apply ssqdm_y_nonneg].
  - intros [Hc|Hc].
    + by apply nancorr_constant_first.
    + by apply nancorr_constant_second.
Qed.

(** X18: a cell of the correlation matrix is NaN exactly when one of its
    two columns has a single value on the view (a view with fewer than
    two rows is such a view, for every column). *)
Theorem X18_corr_nan_iff_constant_column (v : DataFrame)
    (x y : numeric_column) :
  corr v x y = NaN ↔ constant_on v x ∨ constant_on v y.
Proof.
  unfold corr. destruct (decide _).
  - apply nancorr_nan_iff.
  - rewrite nancorr_nan_iff. tauto.
Qed.

(** *** The coefficient is between −1 and 1 *)

Lemma welford_step_sums (st : welford) (p : Z * Z) :
  let k := 1 - / INR (S (nobs st)) in
  let a := IZR p.1 - meanx st in
  let b := IZR p.2 - meany st in
  ssqdm_x (welford_step st p) = ssqdm_x st + a * a * k ∧
  ssqdm_y (welford_step st p) = ssqdm_y st + b * b * k ∧
  covxy (welford_step st p) = covxy st + a * b * k.
Proof. cbn. unfold Rdiv. repeat split; ring. Qed.

Lemma quadratic_form_nonneg (sx sy c a b : R) :
  0 <= sx → 0 <= sy → c * c <= sx * sy →
  0 <= sx * (b * b) + sy * (a * a) - 2 * (c * (a * b)).
Proof.
  intros Hsx Hsy Hc.
  destruct (Req_dec_T sx 0) as [Hz|Hnz].
  - subst sx. assert (c = 0) by nra. subst c.
    pose proof (Rle_0_sqr a) as Ha. unfold Rsqr in Ha. nra.
  - assert (Hpos : 0 < sx) by lra.
    assert (Hscaled :
      0 <= sx * (sx * (b * b) + sy * (a * a) - 2 * (c * (a * b)))).
    { replace (sx * (sx * (b * b) + sy * (a * a) - 2 * (c * (a * b))))
        with ((sx * b - c * a) * (sx * b - c * a)
              + (sx * sy - c * c) * (a * a)) by ring.
      pose proof (Rle_0_sqr (sx * b - c * a)) as H1. unfold Rsqr in H1.
      pose proof (Rle_0_sqr a) as H2. unfold Rsqr in H2.
      assert (0 <= (sx * sy - c * c) * (a * a))
        by (apply Rmult_le_pos; lra).
      lra. }
    apply (Rmult_le_reg_l sx); [done|]. lra.
Qed.

Lemma welford_step_bounded (st : welford) (p : Z * Z) :
  bounded st → bounded (welford_step st p).
Proof.
  intros (Hsx & Hsy & Hc). unfold bounded.
  destruct (welford_step_sums st p) as (-> & -> & ->).
  pose proof (inv_INR_S (nobs st)) as [Hk0 Hk1].
  set (k := 1 - / INR (S (nobs st))).
  assert (Hk : 0 <= k) by (unfold k; lra).
  set (a := IZR p.1 - meanx st). set (b := IZR p.2 - meany st).
  pose proof (Rle_0_sqr a) as Ha. unfold Rsqr in Ha.
  pose proof (Rle_0_sqr b) as Hb. unfold Rsqr in Hb.
  pose proof (quadratic_form_nonneg _ _ _ a b Hsx Hsy Hc) as Hq.
  assert (Hka : 0 <= a * a * k) by (by apply Rmult_le_pos).
  assert (Hkb : 0 <= b * b * k) by (by apply Rmult_le_pos).
  split; [lra|]. split; [lra|].
  assert (Hkq : 0 <= k * (ssqdm_x st * (b * b) + ssqdm_y st * (a * a)
                          - 2 * (covxy st * (a * b))))
    by (by apply Rmult_le_pos).
  nra.
Qed.

Lemma welford_pass_bounded (xs ys : list Z) : bounded (welford_pass xs ys).
Proof.
  unfold welford_pass.
  assert (Hinit : bounded welford_init) by (unfold bounded; cbn; lra).
  revert Hinit. generalize welford_init.
  induction (zip xs ys) as [|p l IH]; intros st Hst; [done|].
  cbn [fold_left]. by apply IH, welford_step_bounded.
Qed.

Lemma nancorr_range (xs ys : list Z) (c : R) :
  nancorr xs ys = Val c → -1 <= c <= 1.
Proof.
  unfold nancorr. destruct (decide _); [done|].
  destruct (Req_dec_T _ 0) as [|Hd]; [done|].
  intros [= <-].
  destruct (welford_pass_bounded xs ys) as (Hsx & Hsy & Hc).
  set (st := welford_pass xs ys) in *.
  set (d := sqrt (ssqdm_x st * ssqdm_y st)) in *.
  assert (Hd0 : 0 < d).
  { pose proof (sqrt_pos (ssqdm_x st * ssqdm_y st)). fold d in H. lra. }
  assert (Hdd : d * d = ssqdm_x st * ssqdm_y st).
  { apply sqrt_sqrt. by apply Rmult_le_pos. }
  assert (Hcd : - d <= covxy st <= d) by nra.
  split.
  - apply (Rmult_le_reg_r d); [done|]. unfold Rdiv.
    rewrite Rmult_assoc, Rinv_l by lra. lra.
  - apply (Rmult_le_reg_r d); [done|]. unfold Rdiv.
    rewrite Rmult_assoc, Rinv_l by lra. lra.
Qed.

(** X19: every cell of the correlation matrix that is not NaN holds a
    number between −1 and 1. *)
Theorem X19_corr_between_minus_one_and_one (v : DataFrame)
    (x y : numeric_column) (c : R) :
  corr v x y = Val c → -1 <= c <= 1.
Proof. unfold corr. destruct (decide _); apply nancorr_range. Qed.

Lemma X19_witness_cost_diagonal :
  corr Samples.two_on_time col_Cost_of_the_Product col_Cost_of_the_Product
    = Val 1 ∧
  -1 <= 1 <= 1.
Proof.
  assert (Hcell : corr Samples.two_on_time col_Cost_of_the_Product
                    col_Cost_of_the_Product = Val 1)
    by apply corr_varying_diagonal, two_on_time_cost_varies.
  split; [exact Hcell|].
  exact (X19_corr_between_minus_one_and_one Samples.two_on_time
           col_Cost_of_the_Product col_Cost_of_the_Product 1 Hcell).
Defined.


End CorrMore.

(** ** The text of the "Total Orders" card (line 100) *)

Module CardsFacts.
Import Cards.

Lemma chunks_of_three_ind (P : list ascii → Prop) :
  P [] → (∀ a, P [a]) → (∀ a b, P [a; b]) → (∀ a b c, P [a; b; c]) →
  (∀ a b c d l, P (d :: l) → P (a :: b :: c :: d :: l)) →
  ∀ l, P l.
Proof.
  intros H0 H1 H2 H3 Hstep l.
  assert (Hall : ∀ n l', (length l' ≤ n)%nat → P l');
    [|by apply (Hall (length l))].
  clear l. intros n. induction n as [|n IH]; intros l Hlen.
  - destruct l; [done|cbn in Hlen; lia].
  - destruct l as [|a [|b [|c [|d l]]]]; try done.
    apply Hstep, IH. cbn in Hlen |- *. lia.
Qed.

Lemma strip_group3 (l : list ascii) :
  Forall (λ c, c ≠ ","%char) l →
  filter (λ c, c ≠ ","%char) (group3 l) = l.
Proof.
  induction l as [| | | |a b c d l IH] using chunks_of_three_ind;
    intros Hl; try (by apply KPIFacts.filter_all).
  change (group3 (a :: b :: c :: d :: l))
    with (a :: b :: c :: ","%char :: group3 (d :: l)).
  apply Forall_cons in Hl as [Ha Hl]. apply Forall_cons in Hl as [Hb Hl].
  apply Forall_cons in Hl as [Hc Hl].
  rewrite !filter_cons, IH by done.
  rewrite !decide_True by done. by rewrite decide_False by (by intros []).
Qed.

Lemma digits_no_comma (d : Decimal.uint) :
  Forall (λ c, c ≠ ","%char)
         (String.list_ascii_of_string (NilEmpty.string_of_uint d)).
Proof. induction d; cbn; constructor; done. Qed.

Lemma digits_no_comma_zero (d : Decimal.uint) :
  Forall (λ c, c ≠ ","%char)
         (String.list_ascii_of_string (NilZero.string_of_uint d)).
Proof.
  destruct d; try apply (digits_no_comma (_ _)).
  cbn. by constructor.
Qed.

Lemma strip_group_thousands (digits : string) :
  Forall (λ c, c ≠ ","%char) (String.list_ascii_of_string digits) →
  strip_commas (group_thousands digits) = digits.
Proof.
  intros Hd. unfold strip_commas, group_thousands.
  rewrite String.list_ascii_of_string_of_list_ascii, filter_reverse.
  rewrite strip_group3 by (by apply Forall_reverse).
  by rewrite reverse_involutive, String.string_of_list_ascii_of_string.
Qed.

Lemma strip_commas_format (n : Z) :
  strip_commas (format_thousands n) = NilZero.string_of_int (Z.to_int n).
Proof.
  unfold format_thousands. destruct (Z.to_int n) as [d|d]; cbn.
  - apply strip_group_thousands, digits_no_comma_zero.
  - unfold strip_commas. cbn [String.list_ascii_of_string].
    rewrite decide_True by done.
    cbn [String.string_of_list_ascii]. f_equal.
    apply strip_group_thousands, digits_no_comma_zero.
Qed.

(** X21: the card can be read back: without its commas the text is the
    decimal numeral of the count, and parsing it gives the count. *)
Theorem X21_thousands_format_round_trip (n : Z) :
  strip_commas (format_thousands n) = NilZero.string_of_int (Z.to_int n) ∧
  parse_thousands (format_thousands n) = Some n.
Proof.
  split; [apply strip_commas_format|].
  unfold parse_thousands. rewrite strip_commas_format, NilZero.isi.
  - cbn. by rewrite DecimalZ.of_to.
  - destruct n as [|p|p]; cbn; [done| |done].
    intros [= Hp]. by apply Unsigned.to_uint_nonnil in Hp.
  - destruct n as [|p|p]; cbn; [done|done|].
    intros [= Hp]. by apply Unsigned.to_uint_nonnil in Hp.
Qed.

Lemma group3_commas (l : list ascii) :
  Forall (λ c, c ≠ ","%char) l →
  (∀ i, group3 l !! i = Some ","%char ↔
        (∃ k, i = 4 * k + 3)%nat ∧ (i < length (group3 l))%nat) ∧
  (l ≠ [] → ∀ k, length (group3 l) ≠ (4 * k)%nat).
Proof.
  induction l as [|a|a b|a b c|a b c d l IH] using chunks_of_three_ind;
    intros Hl.
  1-4: split;
    [intros i; split;
      [intros Hi; exfalso; apply list_elem_of_lookup_2 in Hi;
       rewrite Forall_forall in Hl; by apply (Hl _ Hi)
      |intros [[k ->] Hlt]; cbn in Hlt; lia]
    |intros Hne k; cbn; try done; lia].
  - apply Forall_cons in Hl as [Ha Hl]. apply Forall_cons in Hl as [Hb Hl].
    apply Forall_cons in Hl as [Hc Hl].
    destruct (IH Hl) as [IHpos IHlen].
    change (group3 (a :: b :: c :: d :: l))
      with (a :: b :: c :: ","%char :: group3 (d :: l)).
    split.
    + intros [|[|[|[|i]]]]; cbn [lookup list_lookup length].
      * split; [by intros [= ->]|]. intros [[k ?] _]. lia.
      * split; [by intros [= ->]|]. intros [[k ?] _]. lia.
      * split; [by intros [= ->]|]. intros [[k ?] _]. lia.
      * split; [|done]. intros _. split; [by exists 0%nat|lia].
      * change ((group3 (d :: l)) !! i = Some ","%char ↔
          (∃ k, S (S (S (S i))) = 4 * k + 3)%nat ∧
          (S (S (S (S i))) < S (S (S (S (length (group3 (d :: l)))))))%nat).
        rewrite IHpos. split.
        -- intros [[k ->] Hi]. split; [exists (S k); lia|lia].
        -- intros [[k Hk] Hi]. split; [|lia].
           destruct k as [|k]; [lia|]. exists k. lia.
    + intros _ k Hk. cbn [length] in Hk.
      destruct k as [|k]; [lia|].
      apply (IHlen ltac:(done) k). lia.
Qed.

(** X22: in the text of the card, counted from the right, the characters
    at positions 3, 7, 11, ... are commas and no other character is; the
    text never starts with a comma. *)
Theorem X22_total_orders_card_commas (v : DataFrame) :
  let text := reverse (String.list_ascii_of_string (total_orders_card v)) in
  (∀ i, text !! i = Some ","%char ↔
        (∃ k, i = 4 * k + 3)%nat ∧ (i < length text)%nat) ∧
  (∀ k, length text ≠ (4 * k)%nat).
Proof.
  unfold total_orders_card, format_thousands, KPI.total_orders, Series.len.
  assert (Hpos : ∃ d, Z.to_int (Z.of_nat (length v)) = Decimal.Pos d ∧
                      NilZero.string_of_uint d ≠ ""%string).
  { destruct (Z.of_nat (length v)) as [|p|p] eqn:Hn; [| |lia].
    - by exists Decimal.zero.
    - exists (Pos.to_uint p). split; [done|].
      pose proof (Unsigned.to_uint_nonnil p) as Hnil.
      by destruct (Pos.to_uint p). }
  destruct Hpos as (d & -> & Hne). cbn zeta. unfold group_thousands.
  rewrite String.list_ascii_of_string_of_list_ascii, reverse_involutive.
  destruct (group3_commas
    (reverse (String.list_ascii_of_string (NilZero.string_of_uint d))))
    as [Hcommas Hlen]; [apply Forall_reverse, digits_no_comma_zero|].
  split; [exact Hcommas|]. apply Hlen.
  intros Hnil. apply Hne.
  rewrite <- (String.string_of_list_ascii_of_string
                (NilZero.string_of_uint d)).
  rewrite <- (reverse_involutive
                (String.list_ascii_of_string (NilZero.string_of_uint d))).
  by rewrite Hnil.
Qed.

End CardsFacts.

(** ** From the selection to the page *)

Module PipelineFacts.
Import Filter.

(** X23: with nothing ticked in one of the multiselects every chart is
    drawn from no data: the histogram and the box plot have no trace, the
    warehouse table no row, the pie no label, and every cell of the
    correlation matrix is NaN. *)
Theorem X23_empty_selection_empty_charts (df : DataFrame) (s : FilterSpec) :
  some_empty s →
  Charts.fig1 (filtered_df df s) = [] ∧
  Aggregates.warehouse_perf (filtered_df df s) = [] ∧
  Aggregates.fig3 (filtered_df df s) = [] ∧
  Aggregates.fig6 (filtered_df df s) = [] ∧
  (∀ x y, Corr.corr (filtered_df df s) x y = Corr.NaN).
Proof.
  intros He. rewrite FilterMore.filtered_df_some_empty by done.
  repeat split. intros x y. apply CorrFacts.corr_constant_row.
  intros r1 r2 Hr1. by apply not_elem_of_nil in Hr1.
Qed.

Lemma X23_witness_no_warehouse :
  Charts.fig1 (filtered_df Samples.four_rows Samples.no_warehouse) = [] ∧
  Aggregates.warehouse_perf
    (filtered_df Samples.four_rows Samples.no_warehouse) = [] ∧
  Aggregates.fig3 (filtered_df Samples.four_rows Samples.no_warehouse) = [] ∧
  Aggregates.fig6 (filtered_df Samples.four_rows Samples.no_warehouse) = [] ∧
  (∀ x y, Corr.corr (filtered_df Samples.four_rows Samples.no_warehouse) x y
          = Corr.NaN).
Proof.
  apply (X23_empty_selection_empty_charts Samples.four_rows
           Samples.no_warehouse).
  right. left. reflexivity.
Defined.

Lemma length_filter_impl {A} (P Q : A → Prop)
    `{!∀ a, Decision (P a)} `{!∀ a, Decision (Q a)} (l : list A) :
  (∀ a, P a → Q a) → (length (filter P l) ≤ length (filter Q l))%nat.
Proof.
  intros Himp. induction l as [|a l IH]; [done|]. rewrite !filter_cons.
  destruct (decide (P a)) as [Hp|Hp].
  - rewrite decide_True by auto. cbn [length]. lia.
  - destruct (decide (Q a)); cbn [length]; lia.
Qed.

(** X24: the "Total Orders" figure never goes down when more values are
    ticked, and never exceeds the number of rows of the dataset. *)
Theorem X24_total_orders_monotone (df : DataFrame) (s s' : FilterSpec) :
  spec_incl s s' →
  (0 ≤ KPI.total_orders (filtered_df df s)
     ≤ KPI.total_orders (filtered_df df s'))%Z ∧
  (KPI.total_orders (filtered_df df s') ≤ Series.len df)%Z.
Proof.
  intros (H1 & H2 & H3 & H4). unfold KPI.total_orders, Series.len.
  rewrite !FilterFacts.filtered_df_filter.
  pose proof (length_filter_impl (accepted s) (accepted s') df) as Hmono.
  pose proof (length_filter (accepted s') df) as Hle.
  split; [split; [lia|]|lia].
  apply inj_le, Hmono. intros r (A1 & A2 & A3 & A4). repeat split; auto.
Qed.

Lemma X24_witness_ships_then_flights :
  (0 ≤ KPI.total_orders (filtered_df Samples.four_rows Samples.ships_only)
     ≤ KPI.total_orders
         (filtered_df Samples.four_rows Samples.ships_and_flights))%Z ∧
  (KPI.total_orders (filtered_df Samples.four_rows Samples.ships_and_flights)
     ≤ Series.len Samples.four_rows)%Z.
Proof.
  apply (X24_total_orders_monotone Samples.four_rows Samples.ships_only
           Samples.ships_and_flights).
  repeat split; cbn; intros x Hx;
    apply list_elem_of_singleton in Hx as ->; apply list_elem_of_here.
Defined.

End PipelineFacts.
